(** * aws-cdk: subnet placement, template snapshots and the synthesis contracts

    A shallow embedding of the parts of the repository the specification
    talks about:

    - [Vpc]: [VpcNetworkBase.subnets] of the ec2 package (vpc-ref.ts),
      translated statement by statement;
    - [VpcObjects]: the same class on objects and arrays in memory:
      [isPublicSubnet], [internetDependency], [DependencyList], the field
      initializers, and [subnets] with the arrays it hands out;
    - [Json], [Snapshots]: the CloudFormation templates the integration tests
      expect, as data;
    - [Intrinsics], [LogicalId], [DepGraph], [Assembler]: the synthesis
      engine (token lowering, id allocation, dependency ordering, template
      assembly).  The engine lives in the core package ([@aws-cdk/cdk]),
      whose sources are not part of this development; those modules are
      modelled from the specification and checked against the expected
      templates: the modelled synthesis of the two boundaries behind them
      gives their [Resources] back. *)

From stdpp Require Import base list strings gmap pretty.
From Stdlib Require Import ZArith Ascii.

#[local] Set Warnings "-register-all".

Local Open Scope string_scope.
Local Open Scope list_scope.
Local Open Scope nat_scope.

(** The double quote character, for messages and descriptions that contain it. *)
Definition dq : string := String (Ascii.ascii_of_nat 34) EmptyString.

(** A node's path: the ids from the root of its boundary down to the node. *)
Abbreviation path := (list string).

(** A JavaScript call either returns a value or throws [new Error(message)]. *)
Inductive outcome (A : Type) : Type :=
| Return (value : A)
| Throw (message : string).
Arguments Return {A} value.
Arguments Throw {A} message.

Definition returned {A} (o : outcome A) : Prop := ∃ v, o = Return v.
Definition thrown {A} (o : outcome A) : Prop := ∃ m, o = Throw m.

(* ================================================================== *)
(** ** VPC subnet placement (vpc-ref.ts) *)

Module Vpc.

(** [enum SubnetType] *)
Inductive SubnetType := Isolated | Private | Public.

(** [enum SubnetQuery] *)
Inductive SubnetQuery := Required | AllowNone.

(** The string value of an enum member, as [JSON.stringify] prints it. *)
Definition SubnetType_value (t : SubnetType) : string :=
  match t with
  | Isolated => "Isolated"
  | Private => "Private"
  | Public => "Public"
  end.

(** [interface IVpcSubnet]: the construct's id in the tree and the two
    attributes the interface declares. *)
Record IVpcSubnet := {
  node_id : string;
  availabilityZone : string;
  subnetId : string
}.

(** [interface VpcPlacementStrategy]: both properties are optional. *)
Record VpcPlacementStrategy := {
  subnetsToUse : option SubnetType;
  subnetName : option string
}.

(** The abstract members of [VpcNetworkBase] that [subnets] reads. *)
Record VpcNetworkBase := {
  vpcId : string;
  publicSubnets : list IVpcSubnet;
  privateSubnets : list IVpcSubnet;
  isolatedSubnets : list IVpcSubnet;
  availabilityZones : list string
}.

(** The [{}] that [placement] defaults to. *)
Definition no_placement : VpcPlacementStrategy :=
  {| subnetsToUse := None; subnetName := None |}.

(** [JSON.stringify(placement)]: properties that are [undefined] are left
    out.  Where [subnets] calls it [subnetName] is undefined, so no string
    that would need escaping is printed there. *)
Definition JSON_stringify (placement : VpcPlacementStrategy) : string :=
  let field (k v : string) := dq +:+ k +:+ dq +:+ ":" +:+ dq +:+ v +:+ dq in
  match subnetsToUse placement, subnetName placement with
  | None, None => "{}"
  | Some t, None => "{" +:+ field "subnetsToUse" (SubnetType_value t) +:+ "}"
  | None, Some n => "{" +:+ field "subnetName" n +:+ "}"
  | Some t, Some n =>
      "{" +:+ field "subnetsToUse" (SubnetType_value t) +:+ ","
          +:+ field "subnetName" n +:+ "}"
  end.

(** The three messages [subnets] throws. *)
Definition at_most_one_error : string :=
  "At most one of subnetsToUse and subnetName can be supplied".

Definition no_subnets_with_name_error (name : string) : string :=
  "No subnets with name: " +:+ name.

Definition no_subnets_match_error (placement : VpcPlacementStrategy) : string :=
  "No subnets in this VPC match " +:+ JSON_stringify placement
    +:+ ". Please select a different set of subnets.".

Section Subnets.

(** [subnetName] of [./util], imported by vpc-ref.ts; the file itself is not
    part of this development.  It gives the name a subnet was configured
    with. *)
Variable subnetName_of : IVpcSubnet → string.

(** The object literal indexed by [placement.subnetsToUse]. *)
Definition selected (vpc : VpcNetworkBase) (t : SubnetType) : list IVpcSubnet :=
  match t with
  | Isolated => isolatedSubnets vpc
  | Private => privateSubnets vpc
  | Public => publicSubnets vpc
  end.

(** [allSubnets.filter(s => subnetName(s) === placement.subnetName)] *)
Definition selectedSubnets (vpc : VpcNetworkBase) (name : string) : list IVpcSubnet :=
  let allSubnets := privateSubnets vpc ++ publicSubnets vpc ++ isolatedSubnets vpc in
  filter (λ s, subnetName_of s = name) allSubnets.

(** [x !== undefined] *)
Definition defined {A} (x : option A) : bool :=
  match x with Some _ => true | None => false end.

#[global] Instance SubnetQuery_eq_dec : EqDecision SubnetQuery.
Proof. solve_decision. Defined.

(** [VpcNetworkBase.subnets(placement = {}, required = SubnetQuery.Required)],
    statement by statement.  An argument left out (or [undefined]) is [None]. *)
Definition subnets (vpc : VpcNetworkBase)
    (placement_arg : option VpcPlacementStrategy)
    (required_arg : option SubnetQuery) : outcome (list IVpcSubnet) :=
  let placement := default no_placement placement_arg in
  let required := default Required required_arg in
  if defined (subnetsToUse placement) && defined (subnetName placement) then
    Throw at_most_one_error
  else
    (* Select by name *)
    match subnetName placement with
    | Some name =>
        let selectedSubnets := selectedSubnets vpc name in
        if (length selectedSubnets =? 0)%nat then
          Throw (no_subnets_with_name_error name)
        else Return selectedSubnets
    | None =>
        (* Select by type *)
        match subnetsToUse placement with
        | None => Return (privateSubnets vpc)
        | Some t =>
            let selected := selected vpc t in
            if bool_decide (required = Required) && (length selected =? 0)%nat then
              Throw (no_subnets_match_error placement)
            else Return selected
        end
    end.

End Subnets.

(** A small network for the examples: two private subnets, one isolated
    subnet, no public subnet.  The subnets are named by their construct id. *)
Definition sample_subnet (id az sid : string) : IVpcSubnet :=
  {| node_id := id; availabilityZone := az; subnetId := sid |}.

Definition sample_vpc : VpcNetworkBase :=
  {| vpcId := "vpc-1";
     publicSubnets := [];
     privateSubnets := [sample_subnet "App" "az-a" "subnet-1";
                        sample_subnet "App" "az-b" "subnet-2"];
     isolatedSubnets := [sample_subnet "Db" "az-a" "subnet-3"];
     availabilityZones := ["az-a"; "az-b"] |}.

(** The same network without private subnets. *)
Definition sample_vpc_no_private : VpcNetworkBase :=
  {| vpcId := "vpc-2";
     publicSubnets := [];
     privateSubnets := [];
     isolatedSubnets := [sample_subnet "Db" "az-a" "subnet-3"];
     availabilityZones := ["az-a"] |}.

Definition by_type (t : SubnetType) : VpcPlacementStrategy :=
  {| subnetsToUse := Some t; subnetName := None |}.

Definition by_name (name : string) : VpcPlacementStrategy :=
  {| subnetsToUse := None; subnetName := Some name |}.

End Vpc.

(* ================================================================== *)
(** ** Template documents *)

Module Json.

(** A JSON document; the members of an object keep their order. *)
Inductive json :=
| JNull
| JBool (b : bool)
| JNumber (n : Z)
| JString (s : string)
| JArray (items : list json)
| JObject (members : list (string * json)).

(** [o[k]] for an object *)
Fixpoint assoc (k : string) (members : list (string * json)) : option json :=
  match members with
  | [] => None
  | (k', v) :: rest => if decide (k' = k) then Some v else assoc k rest
  end.

Definition member (k : string) (j : json) : option json :=
  match j with
  | JObject members => assoc k members
  | _ => None
  end.

Definition item (i : nat) (j : json) : option json :=
  match j with
  | JArray items => items !! i
  | _ => None
  end.

(** A step into a document: a member of an object or an item of an array. *)
Inductive step := Key (k : string) | Index (i : nat).

Fixpoint lookup_path (path : list step) (j : json) : option json :=
  match path with
  | [] => Some j
  | Key k :: path' => member k j ≫= lookup_path path'
  | Index i :: path' => item i j ≫= lookup_path path'
  end.

(** The intrinsic expressions of the template format. *)
Definition Ref (logicalId : string) : json :=
  JObject [("Ref", JString logicalId)].

Definition GetAtt (logicalId attribute : string) : json :=
  JObject [("Fn::GetAtt", JArray [JString logicalId; JString attribute])].

Definition Join (delimiter : string) (parts : list json) : json :=
  JObject [("Fn::Join", JArray [JString delimiter; JArray parts])].

Definition Split (delimiter : string) (source : json) : json :=
  JObject [("Fn::Split", JArray [JString delimiter; source])].

Definition Select (index : nat) (source : json) : json :=
  JObject [("Fn::Select", JArray [JNumber (Z.of_nat index); source])].

(** The [Resources] section: logical id and record of each emitted entity. *)
Definition resources (doc : json) : list (string * json) :=
  match member "Resources" doc with
  | Some (JObject members) => members
  | _ => []
  end.

Definition logical_ids (doc : json) : list string := (resources doc).*1.

Definition string_of (j : json) : option string :=
  match j with JString s => Some s | _ => None end.

(** The [DependsOn] list of an entity's record; empty when it has none. *)
Definition dependsOn (record : json) : list string :=
  match member "DependsOn" record with
  | Some (JArray items) => omap string_of items
  | _ => []
  end.

(** The logical id a [Ref] or [Fn::GetAtt] expression names. *)
Definition reference_target (j : json) : option string :=
  match j with
  | JObject [(k, JString id)] => if decide (k = "Ref") then Some id else None
  | JObject [(k, JArray [JString id; JString _])] =>
      if decide (k = "Fn::GetAtt") then Some id else None
  | _ => None
  end.

(** The logical ids a document fragment refers to through [Ref] and
    [Fn::GetAtt], in the order they appear. *)
Fixpoint references (j : json) : list string :=
  match j with
  | JArray items => flat_map references items
  | JObject members =>
      match reference_target j with
      | Some id => [id]
      | None => flat_map (λ m, references m.2) members
      end
  | _ => []
  end.

(** The references of an entity's record to entities of the same document. *)
Definition local_references (doc record : json) : list string :=
  filter (λ id, id ∈ logical_ids doc) (references record).

(** Every dependency edge inside the document is annotated: whatever entity
    of the document a record refers to is in the record's [DependsOn] list. *)
Definition every_edge_annotated (doc : json) : Prop :=
  Forall (λ r, Forall (λ target, target ∈ dependsOn r.2) (local_references doc r.2))
    (resources doc).

End Json.

(* ================================================================== *)
(** ** The templates the integration tests expect *)

Module Snapshots.
Import Json.

(** The expected template of the bucket deployment integration test
    (stack [test-bucket-deployments-1]). *)
Definition bucket_deployment_expected : json :=
  JObject [
    ("Resources", JObject [
      ("Destination920A3C57", JObject [
        ("Type", JString "AWS::S3::Bucket");
        ("Properties", JObject [
          ("WebsiteConfiguration", JObject [("IndexDocument", JString "index.html")])])]);
      ("DestinationPolicy7982387E", JObject [
        ("Type", JString "AWS::S3::BucketPolicy");
        ("Properties", JObject [
          ("Bucket", JObject [("Ref", JString "Destination920A3C57")]);
          ("PolicyDocument", JObject [
            ("Statement", JArray [
              JObject [
                ("Action", JString "s3:GetObject");
                ("Effect", JString "Allow");
                ("Principal", JString "*");
                ("Resource", JObject [
                  ("Fn::Join", JArray [
                    JString EmptyString;
                    JArray [
                      JObject [
                        ("Fn::GetAtt", JArray [JString "Destination920A3C57"; JString "Arn"])];
                      JString "/*"]])])]]);
            ("Version", JString "2012-10-17")])])]);
      ("DeployMeCustomResource4455EE35", JObject [
        ("Type", JString "Custom::CDKBucketDeployment");
        ("Properties", JObject [
          ("ServiceToken", JObject [
            ("Fn::GetAtt", JArray [
              JString "CustomCDKBucketDeployment8693BB64968944B69AAFB0CC9EB8756C81C01536";
              JString "Arn"])]);
          ("SourceBucketName", JObject [("Ref", JString "DeployMeAssetS3Bucket646A811D")]);
          ("SourceObjectKey", JObject [
            ("Fn::Join", JArray [
              JString EmptyString;
              JArray [
                JObject [
                  ("Fn::Select", JArray [
                    JNumber 0;
                    JObject [
                      ("Fn::Split", JArray [
                        JString "||";
                        JObject [
                          ("Ref", JString "DeployMeAssetS3VersionKey5A12D51F")]])]])];
                JObject [
                  ("Fn::Select", JArray [
                    JNumber 1;
                    JObject [
                      ("Fn::Split", JArray [
                        JString "||";
                        JObject [
                          ("Ref", JString "DeployMeAssetS3VersionKey5A12D51F")]])]])]]])]);
          ("DestinationBucketName", JObject [("Ref", JString "Destination920A3C57")]);
          ("RetainOnDelete", JBool false)])]);
      ("CustomCDKBucketDeployment8693BB64968944B69AAFB0CC9EB8756CServiceRole89A01265", JObject [
        ("Type", JString "AWS::IAM::Role");
        ("Properties", JObject [
          ("AssumeRolePolicyDocument", JObject [
            ("Statement", JArray [
              JObject [
                ("Action", JString "sts:AssumeRole");
                ("Effect", JString "Allow");
                ("Principal", JObject [("Service", JString "lambda.amazonaws.com")])]]);
            ("Version", JString "2012-10-17")]);
          ("ManagedPolicyArns", JArray [
            JObject [
              ("Fn::Join", JArray [
                JString EmptyString;
                JArray [
                  JString "arn:";
                  JObject [("Ref", JString "AWS::Partition")];
                  JString ":iam::aws:policy/service-role/AWSLambdaBasicExecutionRole"]])]])])]);
      ("CustomCDKBucketDeployment8693BB64968944B69AAFB0CC9EB8756CServiceRoleDefaultPolicy88902FDF", JObject [
        ("Type", JString "AWS::IAM::Policy");
        ("Properties", JObject [
          ("PolicyDocument", JObject [
            ("Statement", JArray [
              JObject [
                ("Action", JArray [
                  JString "s3:GetObject*";
                  JString "s3:GetBucket*";
                  JString "s3:List*"]);
                ("Effect", JString "Allow");
                ("Resource", JArray [
                  JObject [
                    ("Fn::Join", JArray [
                      JString EmptyString;
                      JArray [
                        JString "arn:";
                        JObject [("Ref", JString "AWS::Partition")];
                        JString ":s3:::";
                        JObject [
                          ("Ref", JString "DeployMeAssetS3Bucket646A811D")]]])];
                  JObject [
                    ("Fn::Join", JArray [
                      JString EmptyString;
                      JArray [
                        JString "arn:";
                        JObject [("Ref", JString "AWS::Partition")];
                        JString ":s3:::";
                        JObject [
                          ("Ref", JString "DeployMeAssetS3Bucket646A811D")];
                        JString "/*"]])]])];
              JObject [
                ("Action", JArray [
                  JString "s3:GetObject*";
                  JString "s3:GetBucket*";
                  JString "s3:List*";
                  JString "s3:DeleteObject*";
                  JString "s3:PutObject*";
                  JString "s3:Abort*"]);
                ("Effect", JString "Allow");
                ("Resource", JArray [
                  JObject [
                    ("Fn::GetAtt", JArray [JString "Destination920A3C57"; JString "Arn"])];
                  JObject [
                    ("Fn::Join", JArray [
                      JString EmptyString;
                      JArray [
                        JObject [
                          ("Fn::GetAtt", JArray [JString "Destination920A3C57"; JString "Arn"])];
                        JString "/*"]])]])];
              JObject [
                ("Action", JArray [
                  JString "s3:GetObject*";
                  JString "s3:GetBucket*";
                  JString "s3:List*"]);
                ("Effect", JString "Allow");
                ("Resource", JArray [
                  JObject [
                    ("Fn::Join", JArray [
                      JString EmptyString;
                      JArray [
                        JString "arn:";
                        JObject [("Ref", JString "AWS::Partition")];
                        JString ":s3:::";
                        JObject [
                          ("Ref", JString "DeployWithPrefixAssetS3Bucket8B33F071")]]])];
                  JObject [
                    ("Fn::Join", JArray [
                      JString EmptyString;
                      JArray [
                        JString "arn:";
                        JObject [("Ref", JString "AWS::Partition")];
                        JString ":s3:::";
                        JObject [
                          ("Ref", JString "DeployWithPrefixAssetS3Bucket8B33F071")];
                        JString "/*"]])]])];
              JObject [
                ("Action", JArray [
                  JString "s3:GetObject*";
                  JString "s3:GetBucket*";
                  JString "s3:List*";
                  JString "s3:DeleteObject*";
                  JString "s3:PutObject*";
                  JString "s3:Abort*"]);
                ("Effect", JString "Allow");
                ("Resource", JArray [
                  JObject [
                    ("Fn::GetAtt", JArray [JString "Destination281A09BDF"; JString "Arn"])];
                  JObject [
                    ("Fn::Join", JArray [
                      JString EmptyString;
                      JArray [
                        JObject [
                          ("Fn::GetAtt", JArray [
                            JString "Destination281A09BDF";
                            JString "Arn"])];
                        JString "/*"]])]])]]);
            ("Version", JString "2012-10-17")]);
          ("PolicyName", JString "CustomCDKBucketDeployment8693BB64968944B69AAFB0CC9EB8756CServiceRoleDefaultPolicy88902FDF");
          ("Roles", JArray [
            JObject [
              ("Ref", JString "CustomCDKBucketDeployment8693BB64968944B69AAFB0CC9EB8756CServiceRole89A01265")]])])]);
      ("CustomCDKBucketDeployment8693BB64968944B69AAFB0CC9EB8756C81C01536", JObject [
        ("Type", JString "AWS::Lambda::Function");
        ("Properties", JObject [
          ("Code", JObject [
            ("S3Bucket", JObject [
              ("Ref", JString "CustomCDKBucketDeployment8693BB64968944B69AAFB0CC9EB8756CCodeS3Bucket6E5FB2B7")]);
            ("S3Key", JObject [
              ("Fn::Join", JArray [
                JString EmptyString;
                JArray [
                  JObject [
                    ("Fn::Select", JArray [
                      JNumber 0;
                      JObject [
                        ("Fn::Split", JArray [
                          JString "||";
                          JObject [
                            ("Ref", JString "CustomCDKBucketDeployment8693BB64968944B69AAFB0CC9EB8756CCodeS3VersionKey426156C0")]])]])];
                  JObject [
                    ("Fn::Select", JArray [
                      JNumber 1;
                      JObject [
                        ("Fn::Split", JArray [
                          JString "||";
                          JObject [
                            ("Ref", JString "CustomCDKBucketDeployment8693BB64968944B69AAFB0CC9EB8756CCodeS3VersionKey426156C0")]])]])]]])])]);
          ("Handler", JString "index.handler");
          ("Role", JObject [
            ("Fn::GetAtt", JArray [
              JString "CustomCDKBucketDeployment8693BB64968944B69AAFB0CC9EB8756CServiceRole89A01265";
              JString "Arn"])]);
          ("Runtime", JString "python3.6");
          ("Timeout", JNumber 900)]);
        ("DependsOn", JArray [
          JString "CustomCDKBucketDeployment8693BB64968944B69AAFB0CC9EB8756CServiceRole89A01265";
          JString "CustomCDKBucketDeployment8693BB64968944B69AAFB0CC9EB8756CServiceRoleDefaultPolicy88902FDF"])]);
      ("Destination281A09BDF", JObject [
        ("Type", JString "AWS::S3::Bucket");
        ("DeletionPolicy", JString "Retain")]);
      ("DeployWithPrefixCustomResource9CF7C694", JObject [
        ("Type", JString "Custom::CDKBucketDeployment");
        ("Properties", JObject [
          ("ServiceToken", JObject [
            ("Fn::GetAtt", JArray [
              JString "CustomCDKBucketDeployment8693BB64968944B69AAFB0CC9EB8756C81C01536";
              JString "Arn"])]);
          ("SourceBucketName", JObject [("Ref", JString "DeployWithPrefixAssetS3Bucket8B33F071")]);
          ("SourceObjectKey", JObject [
            ("Fn::Join", JArray [
              JString EmptyString;
              JArray [
                JObject [
                  ("Fn::Select", JArray [
                    JNumber 0;
                    JObject [
                      ("Fn::Split", JArray [
                        JString "||";
                        JObject [
                          ("Ref", JString "DeployWithPrefixAssetS3VersionKey45049418")]])]])];
                JObject [
                  ("Fn::Select", JArray [
                    JNumber 1;
                    JObject [
                      ("Fn::Split", JArray [
                        JString "||";
                        JObject [
                          ("Ref", JString "DeployWithPrefixAssetS3VersionKey45049418")]])]])]]])]);
          ("DestinationBucketName", JObject [("Ref", JString "Destination281A09BDF")]);
          ("DestinationBucketKeyPrefix", JString "deploy/here/");
          ("RetainOnDelete", JBool false)])])]);
    ("Parameters", JObject [
      ("DeployMeAssetS3Bucket646A811D", JObject [
        ("Type", JString "String");
        ("Description", JString ("S3 bucket for asset " +:+ dq +:+ "test-bucket-deployments-1/DeployMe/Asset" +:+ dq))]);
      ("DeployMeAssetS3VersionKey5A12D51F", JObject [
        ("Type", JString "String");
        ("Description", JString ("S3 key for asset version " +:+ dq +:+ "test-bucket-deployments-1/DeployMe/Asset" +:+ dq))]);
      ("CustomCDKBucketDeployment8693BB64968944B69AAFB0CC9EB8756CCodeS3Bucket6E5FB2B7", JObject [
        ("Type", JString "String");
        ("Description", JString ("S3 bucket for asset " +:+ dq +:+ "test-bucket-deployments-1/Custom::CDKBucketDeployment8693BB64968944B69AAFB0CC9EB8756C/Code" +:+ dq))]);
      ("CustomCDKBucketDeployment8693BB64968944B69AAFB0CC9EB8756CCodeS3VersionKey426156C0", JObject [
        ("Type", JString "String");
        ("Description", JString ("S3 key for asset version " +:+ dq +:+ "test-bucket-deployments-1/Custom::CDKBucketDeployment8693BB64968944B69AAFB0CC9EB8756C/Code" +:+ dq))]);
      ("DeployWithPrefixAssetS3Bucket8B33F071", JObject [
        ("Type", JString "String");
        ("Description", JString ("S3 bucket for asset " +:+ dq +:+ "test-bucket-deployments-1/DeployWithPrefix/Asset" +:+ dq))]);
      ("DeployWithPrefixAssetS3VersionKey45049418", JObject [
        ("Type", JString "String");
        ("Description", JString ("S3 key for asset version " +:+ dq +:+ "test-bucket-deployments-1/DeployWithPrefix/Asset" +:+ dq))])])].

(** [aws-codepipeline/test/integ.pipeline-jenkins.expected.json] *)
Definition pipeline_jenkins_expected : json :=
  JObject [
    ("Resources", JObject [
      ("MyBucketF68F3FF0", JObject [
        ("Type", JString "AWS::S3::Bucket");
        ("DeletionPolicy", JString "Retain");
        ("Properties", JObject [
          ("VersioningConfiguration", JObject [("Status", JString "Enabled")])])]);
      ("PipelineRoleD68726F7", JObject [
        ("Type", JString "AWS::IAM::Role");
        ("Properties", JObject [
          ("AssumeRolePolicyDocument", JObject [
            ("Statement", JArray [
              JObject [
                ("Action", JString "sts:AssumeRole");
                ("Effect", JString "Allow");
                ("Principal", JObject [("Service", JString "codepipeline.amazonaws.com")])]]);
            ("Version", JString "2012-10-17")])])]);
      ("PipelineRoleDefaultPolicyC7A05455", JObject [
        ("Type", JString "AWS::IAM::Policy");
        ("Properties", JObject [
          ("PolicyDocument", JObject [
            ("Statement", JArray [
              JObject [
                ("Action", JArray [
                  JString "s3:GetObject*";
                  JString "s3:GetBucket*";
                  JString "s3:List*";
                  JString "s3:DeleteObject*";
                  JString "s3:PutObject*";
                  JString "s3:Abort*"]);
                ("Effect", JString "Allow");
                ("Resource", JArray [
                  JObject [
                    ("Fn::GetAtt", JArray [JString "MyBucketF68F3FF0"; JString "Arn"])];
                  JObject [
                    ("Fn::Join", JArray [
                      JString EmptyString;
                      JArray [
                        JObject [
                          ("Fn::GetAtt", JArray [JString "MyBucketF68F3FF0"; JString "Arn"])];
                        JString "/*"]])]])];
              JObject [
                ("Action", JArray [
                  JString "s3:GetObject*";
                  JString "s3:GetBucket*";
                  JString "s3:List*"]);
                ("Effect", JString "Allow");
                ("Resource", JArray [
                  JObject [
                    ("Fn::GetAtt", JArray [JString "MyBucketF68F3FF0"; JString "Arn"])];
                  JObject [
                    ("Fn::Join", JArray [
                      JString EmptyString;
                      JArray [
                        JObject [
                          ("Fn::GetAtt", JArray [JString "MyBucketF68F3FF0"; JString "Arn"])];
                        JString "/*"]])]])]]);
            ("Version", JString "2012-10-17")]);
          ("PolicyName", JString "PipelineRoleDefaultPolicyC7A05455");
          ("Roles", JArray [JObject [("Ref", JString "PipelineRoleD68726F7")]])])]);
      ("PipelineC660917D", JObject [
        ("Type", JString "AWS::CodePipeline::Pipeline");
        ("Properties", JObject [
          ("ArtifactStore", JObject [
            ("Location", JObject [("Ref", JString "MyBucketF68F3FF0")]);
            ("Type", JString "S3")]);
          ("RoleArn", JObject [
            ("Fn::GetAtt", JArray [JString "PipelineRoleD68726F7"; JString "Arn"])]);
          ("Stages", JArray [
            JObject [
              ("Actions", JArray [
                JObject [
                  ("ActionTypeId", JObject [
                    ("Category", JString "Source");
                    ("Owner", JString "AWS");
                    ("Provider", JString "S3");
                    ("Version", JString "1")]);
                  ("Configuration", JObject [
                    ("S3Bucket", JObject [("Ref", JString "MyBucketF68F3FF0")]);
                    ("S3ObjectKey", JString "some/path")]);
                  ("InputArtifacts", JArray []);
                  ("Name", JString "S3");
                  ("OutputArtifacts", JArray [
                    JObject [
                      ("Name", JString "Artifact_awscdkcodepipelinejenkinsMyBucketS32154568D")]]);
                  ("RunOrder", JNumber 1)]]);
              ("Name", JString "Source")];
            JObject [
              ("Actions", JArray [
                JObject [
                  ("ActionTypeId", JObject [
                    ("Category", JString "Build");
                    ("Owner", JString "Custom");
                    ("Provider", JString "JenkinsProvider");
                    ("Version", JString "2")]);
                  ("Configuration", JObject [("ProjectName", JString "JenkinsProject1")]);
                  ("InputArtifacts", JArray [
                    JObject [
                      ("Name", JString "Artifact_awscdkcodepipelinejenkinsMyBucketS32154568D")]]);
                  ("Name", JString "JenkinsBuild");
                  ("OutputArtifacts", JArray [
                    JObject [
                      ("Name", JString "Artifact_awscdkcodepipelinejenkinsJenkinsProviderJenkinsBuild6007E9FD")]]);
                  ("RunOrder", JNumber 1)];
                JObject [
                  ("ActionTypeId", JObject [
                    ("Category", JString "Test");
                    ("Owner", JString "Custom");
                    ("Provider", JString "JenkinsProvider");
                    ("Version", JString "2")]);
                  ("Configuration", JObject [("ProjectName", JString "JenkinsProject2")]);
                  ("InputArtifacts", JArray [
                    JObject [
                      ("Name", JString "Artifact_awscdkcodepipelinejenkinsMyBucketS32154568D")]]);
                  ("Name", JString "JenkinsTest");
                  ("OutputArtifacts", JArray []);
                  ("RunOrder", JNumber 1)];
                JObject [
                  ("ActionTypeId", JObject [
                    ("Category", JString "Test");
                    ("Owner", JString "Custom");
                    ("Provider", JString "JenkinsProvider");
                    ("Version", JString "2")]);
                  ("Configuration", JObject [("ProjectName", JString "JenkinsProject3")]);
                  ("InputArtifacts", JArray [
                    JObject [
                      ("Name", JString "Artifact_awscdkcodepipelinejenkinsMyBucketS32154568D")]]);
                  ("Name", JString "JenkinsTest2");
                  ("OutputArtifacts", JArray []);
                  ("RunOrder", JNumber 1)]]);
              ("Name", JString "Build")]])]);
        ("DependsOn", JArray [
          JString "PipelineRoleD68726F7";
          JString "PipelineRoleDefaultPolicyC7A05455"])]);
      ("JenkinsProviderJenkinsBuildProviderResourceD9231CAC", JObject [
        ("Type", JString "AWS::CodePipeline::CustomActionType");
        ("Properties", JObject [
          ("Category", JString "Build");
          ("InputArtifactDetails", JObject [("MaximumCount", JNumber 5); ("MinimumCount", JNumber 0)]);
          ("OutputArtifactDetails", JObject [("MaximumCount", JNumber 5); ("MinimumCount", JNumber 0)]);
          ("Provider", JString "JenkinsProvider");
          ("ConfigurationProperties", JArray [
            JObject [
              ("Key", JBool true);
              ("Name", JString "ProjectName");
              ("Queryable", JBool true);
              ("Required", JBool true);
              ("Secret", JBool false)]]);
          ("Settings", JObject [
            ("EntityUrlTemplate", JString "http://myjenkins.com:8080/job/{Config:ProjectName}");
            ("ExecutionUrlTemplate", JString "http://myjenkins.com:8080/job/{Config:ProjectName}/{ExternalExecutionId}")]);
          ("Version", JString "2")])]);
      ("JenkinsProviderJenkinsTestProviderResourceF0CF8F0E", JObject [
        ("Type", JString "AWS::CodePipeline::CustomActionType");
        ("Properties", JObject [
          ("Category", JString "Test");
          ("InputArtifactDetails", JObject [("MaximumCount", JNumber 5); ("MinimumCount", JNumber 0)]);
          ("OutputArtifactDetails", JObject [("MaximumCount", JNumber 5); ("MinimumCount", JNumber 0)]);
          ("Provider", JString "JenkinsProvider");
          ("ConfigurationProperties", JArray [
            JObject [
              ("Key", JBool true);
              ("Name", JString "ProjectName");
              ("Queryable", JBool true);
              ("Required", JBool true);
              ("Secret", JBool false)]]);
          ("Settings", JObject [
            ("EntityUrlTemplate", JString "http://myjenkins.com:8080/job/{Config:ProjectName}");
            ("ExecutionUrlTemplate", JString "http://myjenkins.com:8080/job/{Config:ProjectName}/{ExternalExecutionId}")]);
          ("Version", JString "2")])])])].

End Snapshots.

(* ================================================================== *)
(** ** Logical ids (specification 4.3) *)

Module LogicalId.

(** Modelled from the spec: the alphabet of the target identifiers (4.3),
    letters and digits as the ids of the expected templates show. *)
Definition is_alphanumeric (c : Ascii.ascii) : bool :=
  let n := Ascii.nat_of_ascii c in
  (48 <=? n) && (n <=? 57) || (65 <=? n) && (n <=? 90) || (97 <=? n) && (n <=? 122).

(** Modelled from the spec: a path segment without the characters that are
    invalid in an identifier (4.3). *)
Fixpoint strip (s : string) : string :=
  match s with
  | EmptyString => EmptyString
  | String c rest => if is_alphanumeric c then String c (strip rest) else strip rest
  end.

(** Modelled from the spec: the human-readable prefix (4.3), the stripped
    path segments concatenated. *)
Fixpoint human (p : path) : string :=
  match p with
  | [] => EmptyString
  | segment :: rest => strip segment +:+ human rest
  end.

(** The length of the hash suffix, as the expected templates show it
    ([Destination] + [920A3C57]). *)
Definition hash_length : nat := 8.

Section Allocator.

(** The hash over the full path.  It belongs to the core package and is taken
    as a parameter. *)
Variable hash : path → string.

(** Modelled from the spec: [allocate(path)] of 4.3, the prefix followed by
    the hash of the full path. *)
Definition logical_id (p : path) : string := human p +:+ hash p.

(** Modelled from the spec: the allocator's id cache (4.3, 5), write-once per
    key: the id of every path allocated so far, and the path every id was
    given to. *)
Record allocator := {
  allocated : gmap path string;
  owner : gmap string path
}.

Definition empty : allocator := {| allocated := ∅; owner := ∅ |}.

(** Modelled from the spec: an allocation gives an id or fails with the fatal
    [AllocationError] of 7. *)
Inductive allocation :=
| Allocated (id : string) (a : allocator)
| AllocationError (id : string) (first second : path).

(** Modelled from the spec: ids are allocated once per node and memoized; an
    id that already belongs to another path is a fatal [AllocationError]. *)
Definition allocate (a : allocator) (p : path) : allocation :=
  match allocated a !! p with
  | Some id => Allocated id a
  | None =>
      let id := logical_id p in
      match owner a !! id with
      | Some first => AllocationError id first p
      | None =>
          Allocated id {| allocated := <[p := id]> (allocated a);
                          owner := <[id := p]> (owner a) |}
      end
  end.



End Allocator.

(** The last [hash_length] characters of an id, and whether a string is made
    of upper-case hexadecimal digits. *)
Definition suffix (id : string) : string :=
  String.substring (String.length id - hash_length) hash_length id.

Definition is_hex_digit (c : Ascii.ascii) : bool :=
  let n := Ascii.nat_of_ascii c in
  (48 <=? n) && (n <=? 57) || (65 <=? n) && (n <=? 70).

Fixpoint all_chars (test : Ascii.ascii → bool) (s : string) : bool :=
  match s with
  | EmptyString => true
  | String c rest => test c && all_chars test rest
  end.

(** The path of the parameter for the deployment function's code bucket. *)
Definition code_bucket_path : path :=
  ["Custom::CDKBucketDeployment8693BB64968944B69AAFB0CC9EB8756C"; "Code"; "S3Bucket"].









End LogicalId.

(* ================================================================== *)
(** ** Deferred values and their lowering (specification 4.2 and 6) *)

Module Intrinsics.
Import Json.

(** The template format's [Fn::Split]: the pieces of [s] between the
    occurrences of [delimiter], left to right.  [skip] counts the characters
    of an occurrence still to pass over; [piece] is the piece read so far. *)
Fixpoint split_from (delimiter : string) (skip : nat) (piece s : string)
    : list string :=
  match s with
  | EmptyString => [piece]
  | String c rest =>
      match skip with
      | S skip' => split_from delimiter skip' piece rest
      | 0 =>
          if String.prefix delimiter s
          then piece :: split_from delimiter (String.length delimiter - 1) EmptyString rest
          else split_from delimiter 0 (piece +:+ String c EmptyString) rest
      end
  end.

Definition split (delimiter s : string) : list string :=
  split_from delimiter 0 EmptyString s.

(** The template format's [Fn::Join]: [pieces] with [delimiter] between
    them. *)
Fixpoint join (delimiter : string) (pieces : list string) : string :=
  match pieces with
  | [] => EmptyString
  | [piece] => piece
  | piece :: rest => piece +:+ delimiter +:+ join delimiter rest
  end.

(** Modelled from the spec: a Token (3, 4.2), the placeholder for a value
    known at deployment only.  Tokens are defined by the core package.  A
    token stands for the value its producer node
    resolves to, for one of the producer's attributes, or for a parameter of
    the document. *)
Inductive token :=
| Reference (producer : path)
| Attribute (producer : path) (name : string)
| ParameterOf (name : string).

(** Modelled from the spec: a property value before resolution.  Tokens nest
    in lists and mappings at any depth (3); strings are concatenated and
    sliced while their content is still deferred (4.2). *)
Inductive value :=
| Literal (s : string)
| Number (n : Z)
| Boolean (b : bool)
| Deferred (t : token)
| Concat (parts : list value)
| Component (delimiter : string) (index : nat) (source : value)
| ListOf (items : list value)
| MapOf (fields : list (string * value)).

(** Modelled from the spec: the string a value is at construction time, when
    none of it is deferred (4.2: a value not yet known is a token). *)
Fixpoint known (v : value) : option string :=
  match v with
  | Literal s => Some s
  | Concat parts => join EmptyString <$> mapM known parts
  | Component delimiter index source =>
      s ← known source; split delimiter s !! index
  | _ => None
  end.

Definition deferred (v : value) : Prop := known v = None.

(** Modelled from the spec: the producer nodes the tokens of a value refer to
    (3: a token referencing node X creates an edge to X), in the order they
    appear. *)
Fixpoint producers (v : value) : list path :=
  match v with
  | Deferred (Reference producer) => [producer]
  | Deferred (Attribute producer _) => [producer]
  | Concat parts => flat_map producers parts
  | Component _ _ source => producers source
  | ListOf items => flat_map producers items
  | MapOf fields => flat_map (λ f, producers f.2) fields
  | _ => []
  end.

(** What the deployment knows: the value of every reference and attribute. *)
Record deployment := {
  ref_value : string → option string;
  att_value : string → string → option string
}.

(** What an expression of the document evaluates to at deployment: a string,
    or the list of strings a split produces. *)
Inductive result :=
| Str (s : string)
| Strs (l : list string).

Definition as_string (r : result) : option string :=
  match r with Str s => Some s | Strs _ => None end.

Definition as_strings (r : result) : option (list string) :=
  match r with Strs l => Some l | Str _ => None end.

(** The meaning the template format gives to the intrinsic expressions. *)
Fixpoint eval (env : deployment) (j : json) : option result :=
  match j with
  | JString s => Some (Str s)
  | JObject [(fn, JString id)] =>
      if decide (fn = "Ref") then Str <$> ref_value env id else None
  | JObject [(fn, JArray [JString a; b])] =>
      if decide (fn = "Fn::GetAtt") then
        match b with
        | JString name => Str <$> att_value env a name
        | _ => None
        end
      else if decide (fn = "Fn::Join") then
        match b with
        | JArray parts =>
            pieces ← mapM (λ p, eval env p ≫= as_string) parts;
            Some (Str (join a pieces))
        | _ => None
        end
      else if decide (fn = "Fn::Split") then
        s ← eval env b ≫= as_string; Some (Strs (split a s))
      else None
  | JObject [(fn, JArray [JNumber i; b])] =>
      if decide (fn = "Fn::Select") then
        l ← eval env b ≫= as_strings; Str <$> l !! Z.to_nat i
      else None
  | _ => None
  end.

Section Resolve.

(** The logical id of each node (4.3). *)
Variable id_of : path → string.

(** Modelled from the spec: a resolved token names its producer by logical
    id, as [Ref] and [Fn::GetAtt] do in the expected templates. *)
Definition resolve_token (t : token) : json :=
  match t with
  | Reference producer => Ref (id_of producer)
  | Attribute producer name => GetAtt (id_of producer) name
  | ParameterOf name => Ref name
  end.

(** Modelled from the spec: resolution (4.2, 6), depth first.  A
    concatenation with a deferred part becomes a join over the empty delimiter
    of the resolved parts, in their order; a component of a deferred string
    becomes a selection from a split.  Strings known in full stay strings, as
    the literal properties of the expected templates do. *)
Fixpoint resolve (v : value) : json :=
  match v with
  | Literal s => JString s
  | Number n => JNumber n
  | Boolean b => JBool b
  | Deferred t => resolve_token t
  | Concat parts =>
      match mapM known parts with
      | Some pieces => JString (join EmptyString pieces)
      | None => Join EmptyString (map resolve parts)
      end
  | Component delimiter index source =>
      match known source with
      | Some s => JString (default EmptyString (split delimiter s !! index))
      | None => Select index (Split delimiter (resolve source))
      end
  | ListOf items => JArray (map resolve items)
  | MapOf fields => JObject (map (λ f, (f.1, resolve f.2)) fields)
  end.

(** The string a value stands for once the deployment is known: what eager
    concatenation and slicing would have computed. *)
Fixpoint denote (env : deployment) (v : value) : option string :=
  match v with
  | Literal s => Some s
  | Deferred (Reference producer) => ref_value env (id_of producer)
  | Deferred (Attribute producer name) => att_value env (id_of producer) name
  | Deferred (ParameterOf name) => ref_value env name
  | Concat parts => join EmptyString <$> mapM (denote env) parts
  | Component delimiter index source =>
      s ← denote env source; split delimiter s !! index
  | _ => None
  end.

End Resolve.

(** The concatenation of the specification's join-lowering scenario: the
    literal [a/], a deferred value [X] and the literal [b]. *)
Definition a_X_b : value :=
  Concat [Literal "a/"; Deferred (ParameterOf "X"); Literal "b"].

(** The values behind three properties of the bucket deployment template: the
    objects of a bucket, by its deferred ARN; an ARN put together around the
    partition; the two components of an asset's version key. *)
Definition bucket_objects (bucket : path) : value :=
  Concat [Deferred (Attribute bucket "Arn"); Literal "/*"].

Definition managed_policy_arn : value :=
  Concat [Literal "arn:"; Deferred (ParameterOf "AWS::Partition");
          Literal ":iam::aws:policy/service-role/AWSLambdaBasicExecutionRole"].

Definition asset_object_key (versionKey : string) : value :=
  Concat [Component "||" 0 (Deferred (ParameterOf versionKey));
          Component "||" 1 (Deferred (ParameterOf versionKey))].

End Intrinsics.

(* ================================================================== *)
(** ** Dependency graph (specification 4.4) *)

Module DepGraph.

Section Graph.

Context {node : Type} `{EqDecision node}.

(** Modelled from the spec: the dependency graph of 3 and 4.4, kept by the
    core package.  [nodes] is the declaration order; an edge [(from, to)]
    says that [from] is emitted after [to]. *)
Record graph := {
  nodes : list node;
  edges : list (node * node)
}.

(** Modelled from the spec: [addDependency(from, to)], a no-op when the edge
    is already there. *)
Definition addDependency (g : graph) (from to : node) : graph :=
  if decide ((from, to) ∈ edges g) then g
  else {| nodes := nodes g; edges := edges g ++ [(from, to)] |}.

(** Modelled from the spec: the nodes [n] depends on (3), in the order the
    edges were added. *)
Definition dependencies (g : graph) (n : node) : list node :=
  (filter (λ e, e.1 = n) (edges g)).*2.

(** Modelled from the spec: the outcome of the traversal of 4.4: the nodes
    finished so far (latest first), a cycle, or a traversal cut short by its
    recursion bound. *)
Inductive traversal :=
| Done (finished : list node)
| Cycle (path : list node)
| OutOfFuel.

(** Modelled from the spec: the loop of the traversal (4.4): visit the nodes
    [ns] one after the other, threading the finished list, and stop at the
    first one that does not finish. *)
Fixpoint visit_each (step : list node → node → traversal)
    (finished : list node) (ns : list node) : traversal :=
  match ns with
  | [] => Done finished
  | n :: ns' =>
      match step finished n with
      | Done finished' => visit_each step finished' ns'
      | stop => stop
      end
  end.

(** Modelled from the spec: the part of the recursion stack (top first) down
    to and including [n]. *)
Fixpoint down_to (n : node) (stack : list node) : list node :=
  match stack with
  | [] => []
  | x :: stack' => if decide (x = n) then [x] else x :: down_to n stack'
  end.

(** Modelled from the spec: the full cycle path of the error (4.4), closed
    by reaching [n] again while it is on the stack: from [n] along the
    dependencies to the node that depends on [n]. *)
Definition cycle_path (stack : list node) (n : node) : list node :=
  reverse (down_to n stack).

(** Modelled from the spec: depth-first traversal with a recursion stack
    (4.4).  A node met again while on the stack closes a cycle, reported with
    its full path; a finished node is skipped; otherwise the dependencies are
    visited first and the node is finished after them.  [fuel] bounds the
    depth of the recursion. *)
Fixpoint visit (fuel : nat) (g : graph) (stack finished : list node) (n : node)
    : traversal :=
  match fuel with
  | 0 => OutOfFuel
  | S fuel' =>
      if decide (n ∈ stack) then Cycle (cycle_path stack n)
      else if decide (n ∈ finished) then Done finished
      else
        match visit_each (visit fuel' g (n :: stack)) finished (dependencies g n) with
        | Done finished' => Done (n :: finished')
        | stop => stop
        end
  end.

(** Modelled from the spec: the cycle check before emission (4.4): every
    node is visited, in declaration order.  The stack never holds a node
    twice, so its depth stays within the number of nodes. *)
Definition check_cycles (g : graph) : traversal :=
  visit_each (visit (S (length (nodes g))) g []) [] (nodes g).

(** Modelled from the spec: [n] can be emitted once everything it depends on
    has been (3). *)
Definition ready (g : graph) (emitted : list node) (n : node) : Prop :=
  Forall (λ d, d ∈ emitted) (dependencies g n).

#[local] Instance ready_dec g emitted n : Decision (ready g emitted n).
Proof. unfold ready. apply _. Defined.

(** Modelled from the spec: the emission order, a topological sort whose ties
    are broken by declaration order (4.4): the next node emitted is the first
    of the remaining ones, in declaration order, that is ready.  [None] when
    no remaining node is ready. *)
Fixpoint emit (fuel : nat) (g : graph) (emitted remaining : list node)
    : option (list node) :=
  match remaining, fuel with
  | [], _ => Some emitted
  | _, 0 => None
  | _, S fuel' =>
      match list_find (ready g emitted) remaining with
      | Some (i, n) => emit fuel' g (emitted ++ [n]) (delete i remaining)
      | None => None
      end
  end.

(** Modelled from the spec: the emission order of the whole graph. *)
Definition emission_order (g : graph) : option (list node) :=
  emit (length (nodes g)) g [] (nodes g).

(** Modelled from the spec: what ordering ends in: the emission order, or the
    fatal [CyclicDependencyError] of 7 with the cycle path.  [Stuck] stands
    for the bounds of the model running out. *)
Inductive ordering :=
| Emission (order : list node)
| CyclicDependencyError (cycle : list node)
| Stuck.

(** Modelled from the spec: cycles are rejected before emission, then the
    nodes are put in emission order. *)
Definition order (g : graph) : ordering :=
  match check_cycles g with
  | Cycle path => CyclicDependencyError path
  | OutOfFuel => Stuck
  | Done _ =>
      match emission_order g with
      | Some l => Emission l
      | None => Stuck
      end
  end.

(** The graph the properties are stated for: every node declared once, every
    edge between declared nodes. *)
Definition well_formed (g : graph) : Prop :=
  NoDup (nodes g) ∧ Forall (λ e, e.1 ∈ nodes g ∧ e.2 ∈ nodes g) (edges g).

#[global] Instance well_formed_dec g : Decision (well_formed g).
Proof. unfold well_formed. apply _. Defined.

(** [a] depends on [b] directly. *)
Definition depends_on (g : graph) (a b : node) : Prop := (a, b) ∈ edges g.

(** Some node depends on itself through one or more edges. *)
Definition cyclic (g : graph) : Prop := ∃ n, tc (depends_on g) n n.

(** [path] is a chain of dependencies: each node depends on the next. *)
Fixpoint chain (g : graph) (path : list node) : Prop :=
  match path with
  | a :: ((b :: _) as rest) => depends_on g a b ∧ chain g rest
  | _ => True
  end.

(** [path] names a full cycle: a chain whose last node depends on its first. *)
Definition cycle_of (g : graph) (path : list node) : Prop :=
  chain g path ∧ ∃ first final, head path = Some first ∧ last path = Some final
                                ∧ depends_on g final first.

(** The invariant of the finished list (latest first): a node is finished
    once, after everything it depends on. *)
Fixpoint finished_ok (g : graph) (finished : list node) : Prop :=
  match finished with
  | [] => True
  | x :: l => (x ∉ l) ∧ (∀ d, depends_on g x d → d ∈ l) ∧ finished_ok g l
  end.

(** [l] respects every edge: whatever a node depends on comes before it. *)
Definition respects_edges (g : graph) (l : list node) : Prop :=
  ∀ i a b, l !! i = Some a → depends_on g a b → ∃ j, j < i ∧ l !! j = Some b.

End Graph.

Arguments graph node : clear implicits.

(** The graphs of the specification's cycle-rejection scenario. *)
Definition abc_cycle : graph string :=
  {| nodes := ["A"; "B"; "C"];
     edges := [("A", "B"); ("B", "C"); ("C", "A")] |}.

Definition abc_chain : graph string :=
  {| nodes := ["A"; "B"; "C"];
     edges := [("A", "B"); ("B", "C")] |}.

End DepGraph.

(* ================================================================== *)
(** ** Template assembly (specification 4.6) *)

Module Assembler.
Import Json LogicalId Intrinsics DepGraph.

(** Modelled from the spec: an emitted entity (3), by the path of its node:
    its type, its property mapping with the tokens still in it, and the
    dependencies its author declared.  The tree is held by the core
    package.  Some records of the expected templates also carry a deletion
    policy. *)
Record entity := {
  node : path;
  type : string;
  deletionPolicy : option string;
  properties : list (string * value);
  declared_dependencies : list path
}.

(** Modelled from the spec: an aggregation boundary of the frozen tree, with
    its emitting nodes in declaration order. *)
Record stack := {
  stackName : string;
  entities : list entity
}.

(** Modelled from the spec: [p] is a node of the boundary (3). *)
Definition local (s : stack) (p : path) : Prop := p ∈ node <$> entities s.

#[global] Instance local_dec s p : Decision (local s p).
Proof. unfold local. apply _. Defined.

(** Modelled from the spec: the two sources of dependency edges (3), kept to
    the boundary: the declared ones, and the producers the entity's tokens
    refer to. *)
Definition declared_edges (s : stack) (e : entity) : list path :=
  filter (local s) (declared_dependencies e).

(** Modelled from the spec: the edges implied by the entity's tokens (3). *)
Definition implied_edges (s : stack) (e : entity) : list path :=
  filter (local s) (flat_map (λ f, producers f.2) (properties e)).

(** Modelled from the spec: the explicit edges (3, 4.4), registered with
    [addDependency] while the model is built: declaring a dependency twice
    adds one edge. *)
Definition declared_graph (s : stack) : graph path :=
  foldl (λ g e, foldl (λ g d, addDependency g (node e) d) g (declared_edges s e))
        {| nodes := node <$> entities s; edges := [] |}
        (entities s).

(** Modelled from the spec: the dependency graph of a boundary (4.4): the
    explicit edges, then the edges discovered while the tokens of every
    entity are resolved. *)
Definition graph_of (s : stack) : graph path :=
  foldl (λ g e, foldl (λ g d, addDependency g (node e) d) g (implied_edges s e))
        (declared_graph s)
        (entities s).

(** [g] is a graph over the nodes [N]. *)
Definition within (N : list path) (g : graph path) : Prop :=
  nodes g = N ∧ Forall (λ e, e.1 ∈ N ∧ e.2 ∈ N) (edges g).

(** Modelled from the spec: the record of an entity (4.6, 6): its type, its
    resolved properties, and the explicit edges of the entity as the ordering
    annotation.  A reference in the properties is the resolved token itself;
    the expected templates do not repeat it under [DependsOn]. *)
Definition record_of (id_of : path → string) (s : stack) (e : entity) : json :=
  JObject
    ([("Type", JString (type e))]
     ++ match deletionPolicy e with
        | None => []
        | Some policy => [("DeletionPolicy", JString policy)]
        end
     ++ match properties e with
        | [] => []
        | fields => [("Properties", resolve id_of (MapOf fields))]
        end
     ++ match dependencies (declared_graph s) (node e) with
        | [] => []
        | dependencies => [("DependsOn", JArray (JString ∘ id_of <$> dependencies))]
        end).

(** Modelled from the spec: the document of a boundary (4.6, 6): the record of
    every entity under its logical id.  The records are laid out in
    declaration order, as the expected templates have them: there an entity
    may precede what it refers to ([DeployMeCustomResource4455EE35] and the
    function of its service token), so the layout is not the emission
    order. *)
Definition template (id_of : path → string) (s : stack) : json :=
  JObject
    [("Resources",
      JObject ((λ e, (id_of (node e), record_of id_of s e)) <$> entities s))].

(** Modelled from the spec: ids are allocated on first use during synthesis
    (4.3), here in emission order. *)
Fixpoint allocate_all (hash : path → string) (a : allocator) (ps : list path)
    : allocation + allocator :=
  match ps with
  | [] => inr a
  | p :: ps' =>
      match allocate hash a p with
      | Allocated _ a' => allocate_all hash a' ps'
      | failure => inl failure
      end
  end.

(** Modelled from the spec: the memoized id of a node (4.3).  The assembler
    asks for the ids of nodes of the boundary only, after all of them were
    allocated. *)
Definition id_in (a : allocator) (p : path) : string :=
  default EmptyString (allocated a !! p).

(** Modelled from the spec: the references that leave the boundary (4.5):
    consumer and producer of every token whose producer is not a node of the
    boundary. *)
Definition foreign_references (s : stack) : list (path * path) :=
  flat_map (λ e, (λ producer, (node e, producer))
                   <$> filter (λ producer, ¬ local s producer)
                         (flat_map (λ f, producers f.2) (properties e)))
           (entities s).

(** Modelled from the spec: how the synthesis of a boundary ends (5, 7): a
    complete document or a fatal error.  [Unordered] stands for the bounds of
    the model running out. *)
Inductive synthesis :=
| Template (doc : json)
| CyclicDependency (cycle : list path)
| UnresolvableCrossBoundaryReference (consumer producer : path)
| IdCollision (id : string) (first second : path)
| Unordered.

(** Modelled from the spec: synthesis of one boundary (2, 4.6): build the
    graph, reject cycles, order, resolve the references that leave the
    boundary, allocate in emission order, assemble.  The boundary is
    synthesized by itself: a producer outside it belongs to no boundary the
    run knows, so there is no export to import from, which is the fatal
    [UnresolvableCrossBoundaryReferenceError] of 4.5 and 7.  Exports and
    imports between the boundaries of one application are not modelled. *)
Definition synthesize (hash : path → string) (s : stack) : synthesis :=
  match order (graph_of s) with
  | CyclicDependencyError cycle => CyclicDependency cycle
  | Stuck => Unordered
  | Emission l =>
      match foreign_references s with
      | (consumer, producer) :: _ =>
          UnresolvableCrossBoundaryReference consumer producer
      | [] =>
          match allocate_all hash empty l with
          | inl (AllocationError id first second) => IdCollision id first second
          | inl (Allocated _ _) => Unordered
          | inr a => Template (template (id_in a) s)
          end
      end
  end.

(** The boundary behind the bucket deployment template: one entity per record,
    with the properties and the declared dependencies the record shows.  The
    paths are chosen so that their prefix is the one of the id. *)
Definition deployment_Destination : entity :=
  {| node := ["Destination"];
     type := "AWS::S3::Bucket";
     deletionPolicy := None;
     properties := [
       ("WebsiteConfiguration", MapOf [("IndexDocument", Literal "index.html")])];
     declared_dependencies := [] |}.

Definition deployment_DestinationPolicy : entity :=
  {| node := ["Destination"; "Policy"];
     type := "AWS::S3::BucketPolicy";
     deletionPolicy := None;
     properties := [
       ("Bucket", Deferred (Reference ["Destination"]));
       ("PolicyDocument", MapOf [
        ("Statement", ListOf [
          MapOf [
            ("Action", Literal "s3:GetObject");
            ("Effect", Literal "Allow");
            ("Principal", Literal "*");
            ("Resource", Concat [Deferred (Attribute ["Destination"] "Arn"); Literal "/*"])]]);
        ("Version", Literal "2012-10-17")])];
     declared_dependencies := [] |}.

Definition deployment_DeployMeCustomResource : entity :=
  {| node := ["DeployMe"; "CustomResource"];
     type := "Custom::CDKBucketDeployment";
     deletionPolicy := None;
     properties := [
       ("ServiceToken", Deferred (Attribute ["Custom::CDKBucketDeployment8693BB64968944B69AAFB0CC9EB8756C"] "Arn"));
       ("SourceBucketName", Deferred (ParameterOf "DeployMeAssetS3Bucket646A811D"));
       ("SourceObjectKey", Concat [
        Component "||" 0 (Deferred (ParameterOf "DeployMeAssetS3VersionKey5A12D51F"));
        Component "||" 1 (Deferred (ParameterOf "DeployMeAssetS3VersionKey5A12D51F"))]);
       ("DestinationBucketName", Deferred (Reference ["Destination"]));
       ("RetainOnDelete", Boolean false)];
     declared_dependencies := [] |}.

Definition deployment_FunctionServiceRole : entity :=
  {| node := ["Custom::CDKBucketDeployment8693BB64968944B69AAFB0CC9EB8756C"; "ServiceRole"];
     type := "AWS::IAM::Role";
     deletionPolicy := None;
     properties := [
       ("AssumeRolePolicyDocument", MapOf [
        ("Statement", ListOf [
          MapOf [
            ("Action", Literal "sts:AssumeRole");
            ("Effect", Literal "Allow");
            ("Principal", MapOf [("Service", Literal "lambda.amazonaws.com")])]]);
        ("Version", Literal "2012-10-17")]);
       ("ManagedPolicyArns", ListOf [
        Concat [
          Literal "arn:";
          Deferred (ParameterOf "AWS::Partition");
          Literal ":iam::aws:policy/service-role/AWSLambdaBasicExecutionRole"]])];
     declared_dependencies := [] |}.

Definition deployment_FunctionServiceRoleDefaultPolicy : entity :=
  {| node := ["Custom::CDKBucketDeployment8693BB64968944B69AAFB0CC9EB8756C"; "ServiceRole"; "DefaultPolicy"];
     type := "AWS::IAM::Policy";
     deletionPolicy := None;
     properties := [
       ("PolicyDocument", MapOf [
        ("Statement", ListOf [
          MapOf [
            ("Action", ListOf [
              Literal "s3:GetObject*";
              Literal "s3:GetBucket*";
              Literal "s3:List*"]);
            ("Effect", Literal "Allow");
            ("Resource", ListOf [
              Concat [
                Literal "arn:";
                Deferred (ParameterOf "AWS::Partition");
                Literal ":s3:::";
                Deferred (ParameterOf "DeployMeAssetS3Bucket646A811D")];
              Concat [
                Literal "arn:";
                Deferred (ParameterOf "AWS::Partition");
                Literal ":s3:::";
                Deferred (ParameterOf "DeployMeAssetS3Bucket646A811D");
                Literal "/*"]])];
          MapOf [
            ("Action", ListOf [
              Literal "s3:GetObject*";
              Literal "s3:GetBucket*";
              Literal "s3:List*";
              Literal "s3:DeleteObject*";
              Literal "s3:PutObject*";
              Literal "s3:Abort*"]);
            ("Effect", Literal "Allow");
            ("Resource", ListOf [
              Deferred (Attribute ["Destination"] "Arn");
              Concat [
                Deferred (Attribute ["Destination"] "Arn");
                Literal "/*"]])];
          MapOf [
            ("Action", ListOf [
              Literal "s3:GetObject*";
              Literal "s3:GetBucket*";
              Literal "s3:List*"]);
            ("Effect", Literal "Allow");
            ("Resource", ListOf [
              Concat [
                Literal "arn:";
                Deferred (ParameterOf "AWS::Partition");
                Literal ":s3:::";
                Deferred (ParameterOf "DeployWithPrefixAssetS3Bucket8B33F071")];
              Concat [
                Literal "arn:";
                Deferred (ParameterOf "AWS::Partition");
                Literal ":s3:::";
                Deferred (ParameterOf "DeployWithPrefixAssetS3Bucket8B33F071");
                Literal "/*"]])];
          MapOf [
            ("Action", ListOf [
              Literal "s3:GetObject*";
              Literal "s3:GetBucket*";
              Literal "s3:List*";
              Literal "s3:DeleteObject*";
              Literal "s3:PutObject*";
              Literal "s3:Abort*"]);
            ("Effect", Literal "Allow");
            ("Resource", ListOf [
              Deferred (Attribute ["Destination2"] "Arn");
              Concat [
                Deferred (Attribute ["Destination2"] "Arn");
                Literal "/*"]])]]);
        ("Version", Literal "2012-10-17")]);
       ("PolicyName", Literal "CustomCDKBucketDeployment8693BB64968944B69AAFB0CC9EB8756CServiceRoleDefaultPolicy88902FDF");
       ("Roles", ListOf [
        Deferred (Reference ["Custom::CDKBucketDeployment8693BB64968944B69AAFB0CC9EB8756C"; "ServiceRole"])])];
     declared_dependencies := [] |}.

Definition deployment_Function : entity :=
  {| node := ["Custom::CDKBucketDeployment8693BB64968944B69AAFB0CC9EB8756C"];
     type := "AWS::Lambda::Function";
     deletionPolicy := None;
     properties := [
       ("Code", MapOf [
        ("S3Bucket", Deferred (ParameterOf "CustomCDKBucketDeployment8693BB64968944B69AAFB0CC9EB8756CCodeS3Bucket6E5FB2B7"));
        ("S3Key", Concat [
          Component "||" 0 (Deferred (ParameterOf "CustomCDKBucketDeployment8693BB64968944B69AAFB0CC9EB8756CCodeS3VersionKey426156C0"));
          Component "||" 1 (Deferred (ParameterOf "CustomCDKBucketDeployment8693BB64968944B69AAFB0CC9EB8756CCodeS3VersionKey426156C0"))])]);
       ("Handler", Literal "index.handler");
       ("Role", Deferred (Attribute ["Custom::CDKBucketDeployment8693BB64968944B69AAFB0CC9EB8756C"; "ServiceRole"] "Arn"));
       ("Runtime", Literal "python3.6");
       ("Timeout", Number 900)];
     declared_dependencies := [["Custom::CDKBucketDeployment8693BB64968944B69AAFB0CC9EB8756C"; "ServiceRole"]; ["Custom::CDKBucketDeployment8693BB64968944B69AAFB0CC9EB8756C"; "ServiceRole"; "DefaultPolicy"]] |}.

Definition deployment_Destination2 : entity :=
  {| node := ["Destination2"];
     type := "AWS::S3::Bucket";
     deletionPolicy := Some "Retain";
     properties := [];
     declared_dependencies := [] |}.

Definition deployment_DeployWithPrefixCustomResource : entity :=
  {| node := ["DeployWithPrefix"; "CustomResource"];
     type := "Custom::CDKBucketDeployment";
     deletionPolicy := None;
     properties := [
       ("ServiceToken", Deferred (Attribute ["Custom::CDKBucketDeployment8693BB64968944B69AAFB0CC9EB8756C"] "Arn"));
       ("SourceBucketName", Deferred (ParameterOf "DeployWithPrefixAssetS3Bucket8B33F071"));
       ("SourceObjectKey", Concat [
        Component "||" 0 (Deferred (ParameterOf "DeployWithPrefixAssetS3VersionKey45049418"));
        Component "||" 1 (Deferred (ParameterOf "DeployWithPrefixAssetS3VersionKey45049418"))]);
       ("DestinationBucketName", Deferred (Reference ["Destination2"]));
       ("DestinationBucketKeyPrefix", Literal "deploy/here/");
       ("RetainOnDelete", Boolean false)];
     declared_dependencies := [] |}.

Definition bucket_deployment_stack : stack :=
  {| stackName := "test-bucket-deployments-1";
     entities :=
       [deployment_Destination;
        deployment_DestinationPolicy;
        deployment_DeployMeCustomResource;
        deployment_FunctionServiceRole;
        deployment_FunctionServiceRoleDefaultPolicy;
        deployment_Function;
        deployment_Destination2;
        deployment_DeployWithPrefixCustomResource] |}.





Definition jenkins_Pipeline : entity :=
  {| node := ["Pipeline"];
     type := "AWS::CodePipeline::Pipeline";
     deletionPolicy := None;
     properties := [
       ("ArtifactStore", MapOf [
        ("Location", Deferred (Reference ["MyBucket"]));
        ("Type", Literal "S3")]);
       ("RoleArn", Deferred (Attribute ["Pipeline"; "Role"] "Arn"));
       ("Stages", ListOf [
        MapOf [
          ("Actions", ListOf [
            MapOf [
              ("ActionTypeId", MapOf [
                ("Category", Literal "Source");
                ("Owner", Literal "AWS");
                ("Provider", Literal "S3");
                ("Version", Literal "1")]);
              ("Configuration", MapOf [
                ("S3Bucket", Deferred (Reference ["MyBucket"]));
                ("S3ObjectKey", Literal "some/path")]);
              ("InputArtifacts", ListOf []);
              ("Name", Literal "S3");
              ("OutputArtifacts", ListOf [
                MapOf [
                  ("Name", Literal "Artifact_awscdkcodepipelinejenkinsMyBucketS32154568D")]]);
              ("RunOrder", Number 1)]]);
          ("Name", Literal "Source")];
        MapOf [
          ("Actions", ListOf [
            MapOf [
              ("ActionTypeId", MapOf [
                ("Category", Literal "Build");
                ("Owner", Literal "Custom");
                ("Provider", Literal "JenkinsProvider");
                ("Version", Literal "2")]);
              ("Configuration", MapOf [("ProjectName", Literal "JenkinsProject1")]);
              ("InputArtifacts", ListOf [
                MapOf [
                  ("Name", Literal "Artifact_awscdkcodepipelinejenkinsMyBucketS32154568D")]]);
              ("Name", Literal "JenkinsBuild");
              ("OutputArtifacts", ListOf [
                MapOf [
                  ("Name", Literal "Artifact_awscdkcodepipelinejenkinsJenkinsProviderJenkinsBuild6007E9FD")]]);
              ("RunOrder", Number 1)];
            MapOf [
              ("ActionTypeId", MapOf [
                ("Category", Literal "Test");
                ("Owner", Literal "Custom");
                ("Provider", Literal "JenkinsProvider");
                ("Version", Literal "2")]);
              ("Configuration", MapOf [("ProjectName", Literal "JenkinsProject2")]);
              ("InputArtifacts", ListOf [
                MapOf [
                  ("Name", Literal "Artifact_awscdkcodepipelinejenkinsMyBucketS32154568D")]]);
              ("Name", Literal "JenkinsTest");
              ("OutputArtifacts", ListOf []);
              ("RunOrder", Number 1)];
            MapOf [
              ("ActionTypeId", MapOf [
                ("Category", Literal "Test");
                ("Owner", Literal "Custom");
                ("Provider", Literal "JenkinsProvider");
                ("Version", Literal "2")]);
              ("Configuration", MapOf [("ProjectName", Literal "JenkinsProject3")]);
              ("InputArtifacts", ListOf [
                MapOf [
                  ("Name", Literal "Artifact_awscdkcodepipelinejenkinsMyBucketS32154568D")]]);
              ("Name", Literal "JenkinsTest2");
              ("OutputArtifacts", ListOf []);
              ("RunOrder", Number 1)]]);
          ("Name", Literal "Build")]])];
     declared_dependencies := [["Pipeline"; "Role"]; ["Pipeline"; "Role"; "DefaultPolicy"]] |}.





(** The hash suffixes the two templates show for these nodes. *)
Definition expected_hashes : list (path * string) :=
  [(["Destination"], "920A3C57");
   (["Destination"; "Policy"], "7982387E");
   (["DeployMe"; "CustomResource"], "4455EE35");
   (["Custom::CDKBucketDeployment8693BB64968944B69AAFB0CC9EB8756C"; "ServiceRole"], "89A01265");
   (["Custom::CDKBucketDeployment8693BB64968944B69AAFB0CC9EB8756C"; "ServiceRole"; "DefaultPolicy"], "88902FDF");
   (["Custom::CDKBucketDeployment8693BB64968944B69AAFB0CC9EB8756C"], "81C01536");
   (["Destination2"], "81A09BDF");
   (["DeployWithPrefix"; "CustomResource"], "9CF7C694");
   (["MyBucket"], "F68F3FF0");
   (["Pipeline"; "Role"], "D68726F7");
   (["Pipeline"; "Role"; "DefaultPolicy"], "C7A05455");
   (["Pipeline"], "C660917D");
   (["JenkinsProvider"; "JenkinsBuildProviderResource"], "D9231CAC");
   (["JenkinsProvider"; "JenkinsTestProviderResource"], "F0CF8F0E")].

(** A stand-in for the hash of the core package that agrees with the two
    templates on these nodes. *)
Definition expected_hash (p : path) : string :=
  default "00000000" ((list_to_map expected_hashes : gmap path string) !! p).

(** What the two boundaries synthesize to. *)
Definition template_of (s : stack) : json :=
  match synthesize expected_hash s with
  | Template doc => doc
  | _ => JNull
  end.

End Assembler.

(* ================================================================== *)
(** ** VPC objects: identity and shared arrays (vpc-ref.ts) *)

Module VpcObjects.

(** A reference to an object.  [===] on two objects compares references. *)
Abbreviation ref := nat.

(** The arrays in memory, by reference; their elements are objects. *)
Abbreviation arrays := (gmap ref (list ref)).

(** The elements of an array at the moment it is read.  A reference that a
    program holds points to an array in memory; for any other number the
    reading is empty. *)
Definition elements (memory : arrays) (array : ref) : list ref :=
  default [] (memory !! array).

(** A new array with the given elements, at a reference not in use. *)
Definition allocate (memory : arrays) (elements : list ref) : ref * arrays :=
  let array := fresh (dom memory) in (array, <[array := elements]> memory).

(** [new Array()] and [[]]: a new, empty array. *)
Definition new_array (memory : arrays) : ref * arrays :=
  allocate memory [].

(** [array.indexOf(searchElement)] on an array of objects: the first index
    that holds the very object, [-1] when none does. *)
Definition Array_indexOf (memory : arrays) (array searchElement : ref) : Z :=
  match list_find (λ element, element = searchElement) (elements memory array) with
  | Some (index, _) => Z.of_nat index
  | None => (-1)%Z
  end.

(** [array.concat(other)]: a new array, the elements of [array] then those of
    [other]. *)
Definition Array_concat (memory : arrays) (array other : ref) : ref * arrays :=
  allocate memory (elements memory array ++ elements memory other).

(** [array.filter(callback)]: a new array, the elements the callback accepts,
    in their order. *)
Definition Array_filter (memory : arrays) (callback : ref → Prop)
    `{!∀ element, Decision (callback element)} (array : ref) : ref * arrays :=
  allocate memory (filter callback (elements memory array)).

(** [array.length] *)
Definition Array_length (memory : arrays) (array : ref) : nat :=
  length (elements memory array).

(** [array.push(element)], for its effect on the array. *)
Definition Array_push (memory : arrays) (array element : ref) : arrays :=
  alter (λ elements, elements ++ [element]) array memory.

(** An instance of [VpcNetworkBase]: every array member is a reference. *)
Record VpcNetworkBase := {
  vpcId : string;
  publicSubnets : ref;
  privateSubnets : ref;
  isolatedSubnets : ref;
  availabilityZones : list string;
  dependencyElements : ref;
  internetDependencies : ref
}.

(** The field initializers of [VpcNetworkBase], in the order of the class
    body: [dependencyElements = []], then
    [internetDependencies = new Array<IDependable>()].  The abstract members
    are set by the subclass. *)
Definition construct (memory : arrays) (vpcId : string)
    (publicSubnets privateSubnets isolatedSubnets : ref)
    (availabilityZones : list string) : VpcNetworkBase * arrays :=
  let '(dependencyElements, memory) := new_array memory in
  let '(internetDependencies, memory) := new_array memory in
  ({| vpcId := vpcId;
      publicSubnets := publicSubnets;
      privateSubnets := privateSubnets;
      isolatedSubnets := isolatedSubnets;
      availabilityZones := availabilityZones;
      dependencyElements := dependencyElements;
      internetDependencies := internetDependencies |}, memory).

(** [isPublicSubnet(subnet)]: [this.publicSubnets.indexOf(subnet) > -1] *)
Definition isPublicSubnet (memory : arrays) (this : VpcNetworkBase) (subnet : ref)
    : bool :=
  (Array_indexOf memory (publicSubnets this) subnet >? -1)%Z.

(** [class DependencyList]: the constructor keeps the array it is given (the
    parameter property [dependenclyElements]), the getter returns it. *)
Record DependencyList := { dependenclyElements : ref }.

Definition DependencyList_dependencyElements (this : DependencyList) : ref :=
  dependenclyElements this.

(** [internetDependency()]: [new DependencyList(this.internetDependencies)] *)
Definition internetDependency (this : VpcNetworkBase) : DependencyList :=
  {| dependenclyElements := internetDependencies this |}.

(** The object literal indexed by [placement.subnetsToUse]: its values are
    the members themselves, not copies. *)
Definition selected (this : VpcNetworkBase) (t : Vpc.SubnetType) : ref :=
  match t with
  | Vpc.Isolated => isolatedSubnets this
  | Vpc.Private => privateSubnets this
  | Vpc.Public => publicSubnets this
  end.

Section Subnets.

(** [subnetName] of [./util], and the state of every subnet object (its
    members are readonly). *)
Variable subnetName_of : Vpc.IVpcSubnet → string.
Variable fields : ref → Vpc.IVpcSubnet.

(** [VpcNetworkBase.subnets] on objects: what it returns is a reference, and
    [concat] and [filter] make new arrays. *)
Definition subnets (memory : arrays) (this : VpcNetworkBase)
    (placement_arg : option Vpc.VpcPlacementStrategy)
    (required_arg : option Vpc.SubnetQuery) : outcome (ref * arrays) :=
  let placement := default Vpc.no_placement placement_arg in
  let required := default Vpc.Required required_arg in
  if Vpc.defined (Vpc.subnetsToUse placement)
     && Vpc.defined (Vpc.subnetName placement) then
    Throw Vpc.at_most_one_error
  else
    (* Select by name *)
    match Vpc.subnetName placement with
    | Some name =>
        let '(privateAndPublic, memory) :=
          Array_concat memory (privateSubnets this) (publicSubnets this) in
        let '(allSubnets, memory) :=
          Array_concat memory privateAndPublic (isolatedSubnets this) in
        let '(selectedSubnets, memory) :=
          Array_filter memory (λ s, subnetName_of (fields s) = name) allSubnets in
        if (Array_length memory selectedSubnets =? 0)%nat then
          Throw (Vpc.no_subnets_with_name_error name)
        else Return (selectedSubnets, memory)
    | None =>
        (* Select by type *)
        match Vpc.subnetsToUse placement with
        | None => Return (privateSubnets this, memory)
        | Some t =>
            let selected := selected this t in
            if bool_decide (required = Vpc.Required)
               && (Array_length memory selected =? 0)%nat then
              Throw (Vpc.no_subnets_match_error placement)
            else Return (selected, memory)
        end
    end.

(** The network as a reader finds it: the members with the elements the
    arrays hold. *)
Definition view (memory : arrays) (this : VpcNetworkBase) : Vpc.VpcNetworkBase :=
  {| Vpc.vpcId := vpcId this;
     Vpc.publicSubnets := fields <$> elements memory (publicSubnets this);
     Vpc.privateSubnets := fields <$> elements memory (privateSubnets this);
     Vpc.isolatedSubnets := fields <$> elements memory (isolatedSubnets this);
     Vpc.availabilityZones := availabilityZones this |}.

(** What a caller reads in the array [subnets] returned. *)
Definition read (result : outcome (ref * arrays)) : outcome (list Vpc.IVpcSubnet) :=
  match result with
  | Return (array, memory) => Return (fields <$> elements memory array)
  | Throw message => Throw message
  end.

End Subnets.

(** The three subnet arrays of the network are arrays in memory. *)
Definition subnets_in (memory : arrays) (this : VpcNetworkBase) : Prop :=
  publicSubnets this ∈ dom memory
  ∧ privateSubnets this ∈ dom memory
  ∧ isolatedSubnets this ∈ dom memory.

(** One [push] for each of the dependencies, in their order. *)
Definition push_all (memory : arrays) (array : ref) (dependencies : list ref)
    : arrays :=
  foldl (λ memory dependency, Array_push memory array dependency)
        memory dependencies.

(** A network for the examples: subnet objects 11 and 12 are private, 13 is
    public, 14 is a second object in the state of 13. *)
Definition sample_memory : arrays :=
  {[ 1 := [13]; 2 := [11; 12]; 3 := [] ]}.

Definition sample_network : VpcNetworkBase * arrays :=
  construct sample_memory "vpc-1" 1 2 3 ["az-a"; "az-b"].

Definition sample_fields (subnet : ref) : Vpc.IVpcSubnet :=
  match subnet with
  | 11 => Vpc.sample_subnet "App" "az-a" "subnet-1"
  | 12 => Vpc.sample_subnet "App" "az-b" "subnet-2"
  | _ => Vpc.sample_subnet "Web" "az-a" "subnet-3"
  end.

End VpcObjects.

(* ================================================================== *)
(** * Properties *)

Module VpcFacts.
Import Vpc.

Lemma length_zero_false {A} (l : list A) : (length l =? 0)%nat = false ↔ l ≠ [].
Proof. destruct l; simpl; split; intros; congruence. Qed.

Section Subnets.

Variable subnetName_of : IVpcSubnet → string.

(** What [subnets] does on each of its three paths. *)
Lemma subnets_by_type_unfold vpc t required_arg :
  subnets subnetName_of vpc (Some (by_type t)) required_arg =
    if bool_decide (default Required required_arg = Required)
       && (length (selected vpc t) =? 0)%nat
    then Throw (no_subnets_match_error (by_type t))
    else Return (selected vpc t).
Proof. reflexivity. Qed.

Lemma subnets_by_name_unfold vpc name required_arg :
  subnets subnetName_of vpc (Some (by_name name)) required_arg =
    if (length (selectedSubnets subnetName_of vpc name) =? 0)%nat
    then Throw (no_subnets_with_name_error name)
    else Return (selectedSubnets subnetName_of vpc name).
Proof. reflexivity. Qed.

Lemma selectedSubnets_nil vpc name :
  selectedSubnets subnetName_of vpc name = [] ↔
  ∀ s, s ∈ privateSubnets vpc ++ publicSubnets vpc ++ isolatedSubnets vpc →
       subnetName_of s ≠ name.
Proof.
  unfold selectedSubnets. split.
  - intros Hnil s Hs Hname.
    assert (s ∈ @nil IVpcSubnet) as Hin
      by (rewrite <- Hnil; apply list_elem_of_filter; auto).
    inversion Hin.
  - intros Hnone.
    destruct (filter _ _) as [|s l] eqn:Hf; [reflexivity|].
    assert (s ∈ s :: l) as Hin by left.
    rewrite <- Hf in Hin. apply list_elem_of_filter in Hin as [Hname Hs].
    exfalso. exact (Hnone s Hs Hname).
Qed.

(** C1: with a placement that selects by type, [subnets] throws exactly when
    the query mode is [Required] and the selected list is empty, and then with
    the no-match message; with [AllowNone] and an empty selected list it
    returns the empty list. *)
Theorem subnets_by_type_empty_selection vpc t required_arg :
  (thrown (subnets subnetName_of vpc (Some (by_type t)) required_arg)
     ↔ default Required required_arg = Required ∧ selected vpc t = [])
  ∧ (∀ m, subnets subnetName_of vpc (Some (by_type t)) required_arg = Throw m →
          m = no_subnets_match_error (by_type t))
  ∧ (required_arg = Some AllowNone → selected vpc t = [] →
     subnets subnetName_of vpc (Some (by_type t)) required_arg = Return []).
Proof.
  rewrite subnets_by_type_unfold. unfold thrown.
  destruct required_arg as [[]|]; destruct (selected vpc t) as [|s l]; simpl.
  all: split_and!; try (intros; congruence); try split.
  all: try (intros [m Hm]; discriminate Hm); try (intros [? ?]; discriminate).
  all: eauto.
Qed.

(** C2: a placement that supplies both [subnetsToUse] and [subnetName] makes
    [subnets] throw the at-most-one error, whatever the network and the query
    mode; no list is returned. *)
Theorem subnets_both_supplied vpc t name required_arg :
  let placement := {| subnetsToUse := Some t; subnetName := Some name |} in
  subnets subnetName_of vpc (Some placement) required_arg = Throw at_most_one_error
  ∧ ¬ returned (subnets subnetName_of vpc (Some placement) required_arg).
Proof.
  simpl. split; [reflexivity|].
  intros [l Hl]. discriminate Hl.
Qed.

(** C9: selecting by name throws when no subnet of any type has the name, in
    every query mode; the mode is not read on this path, so a by-name query
    never returns the empty list. *)
Theorem subnets_by_name_never_empty vpc name required_arg :
  ((∀ s, s ∈ privateSubnets vpc ++ publicSubnets vpc ++ isolatedSubnets vpc →
         subnetName_of s ≠ name) →
   subnets subnetName_of vpc (Some (by_name name)) required_arg
     = Throw (no_subnets_with_name_error name))
  ∧ (∀ l, subnets subnetName_of vpc (Some (by_name name)) required_arg = Return l →
          l ≠ [])
  ∧ subnets subnetName_of vpc (Some (by_name name)) required_arg
      = subnets subnetName_of vpc (Some (by_name name)) (Some AllowNone).
Proof.
  rewrite !subnets_by_name_unfold. split_and!; [| |reflexivity].
  - intros Hnone. apply selectedSubnets_nil in Hnone. rewrite Hnone. reflexivity.
  - intros l. destruct (length _ =? 0)%nat eqn:Hlen; [discriminate|].
    apply length_zero_false in Hlen. congruence.
Qed.

(** C10: without placement constraints [subnets] returns the private subnets
    as they are, with no emptiness check: an empty private list is returned
    even in the [Required] mode. *)
Theorem subnets_default_private vpc required_arg :
  subnets subnetName_of vpc None required_arg = Return (privateSubnets vpc)
  ∧ subnets subnetName_of vpc (Some no_placement) required_arg
      = Return (privateSubnets vpc)
  ∧ (privateSubnets vpc = [] →
     subnets subnetName_of vpc None (Some Required) = Return []
     ∧ subnets subnetName_of vpc (Some no_placement) (Some Required) = Return []).
Proof.
  split_and!; try reflexivity.
  intros Hnil. unfold subnets. simpl. rewrite Hnil. split; reflexivity.
Qed.

End Subnets.

(** The theorems at the sample networks. *)
Lemma subnets_by_type_empty_selection_sample :
  thrown (subnets node_id sample_vpc (Some (by_type Public)) None)
  ∧ subnets node_id sample_vpc (Some (by_type Public)) (Some AllowNone) = Return [].
Proof.
  pose proof (subnets_by_type_empty_selection node_id sample_vpc Public None)
    as (Hthrow & _ & _).
  pose proof (subnets_by_type_empty_selection node_id sample_vpc Public (Some AllowNone))
    as (_ & _ & Hallow).
  split.
  - apply Hthrow. split; reflexivity.
  - apply Hallow; reflexivity.
Defined.

Lemma subnets_both_supplied_sample :
  subnets node_id sample_vpc
    (Some {| subnetsToUse := Some Private; subnetName := Some "App" |})
    (Some AllowNone) = Throw at_most_one_error.
Proof. exact (proj1 (subnets_both_supplied node_id sample_vpc Private "App" (Some AllowNone))). Defined.

Lemma subnets_by_name_never_empty_sample :
  subnets node_id sample_vpc (Some (by_name "Web")) (Some AllowNone)
    = Throw (no_subnets_with_name_error "Web").
Proof.
  destruct (subnets_by_name_never_empty node_id sample_vpc "Web" (Some AllowNone))
    as (Hthrow & _ & _).
  apply Hthrow. intros s Hs. simpl in Hs.
  repeat (apply elem_of_cons in Hs as [-> | Hs]; [simpl; discriminate|]).
  by apply elem_of_nil in Hs.
Defined.

Lemma subnets_default_private_sample :
  subnets node_id sample_vpc_no_private None (Some Required) = Return [].
Proof.
  destruct (subnets_default_private node_id sample_vpc_no_private (Some Required))
    as (_ & _ & Hempty).
  apply Hempty. reflexivity.
Defined.

End VpcFacts.

Module IntrinsicsFacts.
Import Json Snapshots LogicalId Intrinsics.

(** Induction on values, through the lists of parts, items and fields. *)
Lemma value_induction (P : value → Prop) :
  (∀ s, P (Literal s)) → (∀ n, P (Number n)) → (∀ b, P (Boolean b)) →
  (∀ t, P (Deferred t)) →
  (∀ parts, Forall P parts → P (Concat parts)) →
  (∀ delimiter index source, P source → P (Component delimiter index source)) →
  (∀ items, Forall P items → P (ListOf items)) →
  (∀ fields, Forall (λ f, P f.2) fields → P (MapOf fields)) →
  ∀ v, P v.
Proof.
  intros HLit HNum HBool HDef HConcat HComp HList HMap.
  fix IH 1. intros [s|n|b|t|parts|delimiter index source|items|fields].
  - apply HLit.
  - apply HNum.
  - apply HBool.
  - apply HDef.
  - apply HConcat. induction parts as [|p parts IHparts]; constructor; [apply IH|done].
  - apply HComp, IH.
  - apply HList. induction items as [|p items IHitems]; constructor; [apply IH|done].
  - apply HMap. induction fields as [|[k p] fields IHfields]; constructor; [apply IH|done].
Qed.

(** A concatenation is deferred exactly when one of its parts is. *)
Lemma deferred_concat parts : deferred (Concat parts) ↔ Exists deferred parts.
Proof. unfold deferred. simpl. rewrite fmap_None. apply mapM_None. Qed.

(** The meaning of each intrinsic expression. *)
Lemma eval_Ref env id : eval env (Ref id) = Str <$> ref_value env id.
Proof. reflexivity. Qed.

Lemma eval_GetAtt env id name : eval env (GetAtt id name) = Str <$> att_value env id name.
Proof. reflexivity. Qed.

Lemma eval_Join env delimiter parts :
  eval env (Join delimiter parts) =
    pieces ← mapM (λ p, eval env p ≫= as_string) parts;
    Some (Str (join delimiter pieces)).
Proof. reflexivity. Qed.

Lemma eval_Split env delimiter source :
  eval env (Split delimiter source) =
    s ← eval env source ≫= as_string; Some (Strs (split delimiter s)).
Proof. reflexivity. Qed.

Lemma eval_Select env index source :
  eval env (Select index source) =
    l ← eval env source ≫= as_strings; Str <$> l !! index.
Proof.
  unfold Select. cbn [eval]. rewrite Nat2Z.id.
  destruct (decide _) as [_|Hne]; [done|by destruct Hne].
Qed.

Section Resolve.

Variable id_of : path → string.

(** What is known at construction time is what the deployment sees. *)
Lemma known_denote env v s : known v = Some s → denote id_of env v = Some s.
Proof.
  revert s. induction v as [s'| | | |parts IH|delimiter index source IH| |]
    using value_induction; intros s; simpl; try done.
  - intros (pieces & Hpieces & ->)%fmap_Some.
    assert (mapM (denote id_of env) parts = Some pieces) as ->; [|done].
    apply mapM_Some. apply mapM_Some in Hpieces.
    induction Hpieces as [|p piece parts pieces Hp _ IHparts]; [constructor|].
    apply Forall_cons in IH as [IHp IH]. constructor; auto.
  - intros (s0 & Hs0 & Hi)%bind_Some. rewrite (IH _ Hs0). done.
Qed.

Lemma resolve_parts_sound env parts pieces :
  Forall (λ v, ∀ s, denote id_of env v = Some s →
                    eval env (resolve id_of v) = Some (Str s)) parts →
  mapM (denote id_of env) parts = Some pieces →
  mapM (λ p, eval env p ≫= as_string) (map (resolve id_of) parts) = Some pieces.
Proof.
  intros IH Hpieces. apply mapM_Some, Forall2_fmap_l. apply mapM_Some in Hpieces.
  induction Hpieces as [|p piece parts pieces Hp _ IHparts]; [constructor|].
  apply Forall_cons in IH as [IHp IH]. constructor; [|by apply IHparts].
  simpl. by rewrite (IHp _ Hp).
Qed.

(** Lowering keeps the meaning: whatever string a value stands for once the
    deployment is known, the resolved expression evaluates to it. *)
Lemma resolve_sound env v s :
  denote id_of env v = Some s → eval env (resolve id_of v) = Some (Str s).
Proof.
  revert s. induction v as [s'| | |t|parts IH|delimiter index source IH| |]
    using value_induction; intros s; try done.
  - simpl. by intros [= ->].
  - destruct t as [producer|producer name|name]; simpl denote; intros Hs.
    + change (resolve _ _) with (Ref (id_of producer)). by rewrite eval_Ref, Hs.
    + change (resolve _ _) with (GetAtt (id_of producer) name).
      by rewrite eval_GetAtt, Hs.
    + change (resolve _ _) with (Ref name). by rewrite eval_Ref, Hs.
  - cbn [resolve denote]. intros (pieces & Hpieces & ->)%fmap_Some.
    destruct (mapM known parts) as [known_pieces|] eqn:Hknown.
    + assert (mapM (denote id_of env) parts = Some known_pieces) as Hsame.
      { apply mapM_Some. apply mapM_Some in Hknown.
        eapply Forall2_impl; [exact Hknown|]. intros p piece. apply known_denote. }
      simpl. congruence.
    + by rewrite eval_Join, (resolve_parts_sound env parts pieces IH Hpieces).
  - cbn [resolve denote]. intros (s0 & Hs0 & Hi)%bind_Some.
    destruct (known source) as [k|] eqn:Hknown.
    + rewrite (known_denote env _ _ Hknown) in Hs0. injection Hs0 as ->.
      by rewrite Hi.
    + by rewrite eval_Select, eval_Split, (IH _ Hs0); simpl; rewrite Hi.
Qed.

(** C3: a concatenation with a deferred part resolves to a join expression
    over the (empty) delimiter and the list of the resolved parts in their
    original order, a literal part staying a literal; it is not a string.  At
    deployment the join evaluates to the concatenation of what the parts
    stand for. *)
Theorem concat_resolves_to_ordered_join parts :
  Exists deferred parts →
  resolve id_of (Concat parts) = Join EmptyString (resolve id_of <$> parts)
  ∧ (∀ i s, parts !! i = Some (Literal s) →
            (resolve id_of <$> parts) !! i = Some (JString s))
  ∧ (∀ s, resolve id_of (Concat parts) ≠ JString s)
  ∧ (∀ env pieces, mapM (denote id_of env) parts = Some pieces →
       eval env (resolve id_of (Concat parts))
         = Some (Str (join EmptyString pieces))).
Proof.
  intros Hdeferred.
  assert (resolve id_of (Concat parts)
            = Join EmptyString (resolve id_of <$> parts)) as Hjoin.
  { apply mapM_None in Hdeferred. cbn [resolve]. by rewrite Hdeferred. }
  split_and!; [done| | |].
  - intros i s Hi. by rewrite list_lookup_fmap, Hi.
  - intros s. by rewrite Hjoin.
  - intros env pieces Hpieces. apply resolve_sound. simpl. by rewrite Hpieces.
Qed.

(** C4: a component of a deferred string resolves to the selection of its
    index from the split of the resolved string at the delimiter; at
    deployment the expression evaluates to that piece of what the string
    stands for. *)
Theorem component_resolves_to_select_of_split delimiter index source :
  deferred source →
  resolve id_of (Component delimiter index source)
    = Select index (Split delimiter (resolve id_of source))
  ∧ (∀ env s, denote id_of env source = Some s →
       eval env (resolve id_of (Component delimiter index source))
         = Str <$> split delimiter s !! index).
Proof.
  intros Hdeferred.
  assert (resolve id_of (Component delimiter index source)
            = Select index (Split delimiter (resolve id_of source))) as Hselect.
  { cbn [resolve]. by rewrite Hdeferred. }
  split; [done|]. intros env s Hs.
  by rewrite Hselect, eval_Select, eval_Split, (resolve_sound env _ _ Hs).
Qed.

End Resolve.

(** The theorems at the specification's scenario and at an asset's key. *)
Lemma a_X_b_resolves_to_ordered_join :
  resolve human a_X_b = Join EmptyString [JString "a/"; Ref "X"; JString "b"].
Proof.
  apply (concat_resolves_to_ordered_join human
           [Literal "a/"; Deferred (ParameterOf "X"); Literal "b"]).
  apply Exists_cons_tl, Exists_cons_hd. reflexivity.
Defined.

Lemma version_key_component_resolves_to_select_of_split :
  resolve human (Component "||" 1 (Deferred (ParameterOf "DeployMeAssetS3VersionKey5A12D51F")))
    = Select 1 (Split "||" (Ref "DeployMeAssetS3VersionKey5A12D51F")).
Proof.
  apply (component_resolves_to_select_of_split human "||" 1
           (Deferred (ParameterOf "DeployMeAssetS3VersionKey5A12D51F"))).
  reflexivity.
Defined.

(** The expected templates hold the resolved values at these places, the
    bucket's id being the one the template shows. *)
Lemma bucket_objects_in_template :
  lookup_path [Key "Resources"; Key "DestinationPolicy7982387E"; Key "Properties";
               Key "PolicyDocument"; Key "Statement"; Index 0; Key "Resource"]
    bucket_deployment_expected
  = Some (resolve (λ _, "Destination920A3C57") (bucket_objects ["Destination"])).
Proof. reflexivity. Qed.

Lemma managed_policy_arn_in_template :
  lookup_path [Key "Resources";
               Key "CustomCDKBucketDeployment8693BB64968944B69AAFB0CC9EB8756CServiceRole89A01265";
               Key "Properties"; Key "ManagedPolicyArns"; Index 0]
    bucket_deployment_expected
  = Some (resolve human managed_policy_arn).
Proof. reflexivity. Qed.

Lemma asset_object_key_in_template :
  lookup_path [Key "Resources"; Key "DeployMeCustomResource4455EE35";
               Key "Properties"; Key "SourceObjectKey"]
    bucket_deployment_expected
  = Some (resolve human (asset_object_key "DeployMeAssetS3VersionKey5A12D51F")).
Proof. reflexivity. Qed.

Lemma pipeline_bucket_objects_in_template :
  lookup_path [Key "Resources"; Key "PipelineRoleDefaultPolicyC7A05455";
               Key "Properties"; Key "PolicyDocument"; Key "Statement"; Index 0;
               Key "Resource"; Index 1]
    pipeline_jenkins_expected
  = Some (resolve (λ _, "MyBucketF68F3FF0") (bucket_objects ["MyBucket"])).
Proof. reflexivity. Qed.

End IntrinsicsFacts.

Module LogicalIdFacts.
Import Json Snapshots LogicalId.

Lemma append_empty (t : string) : EmptyString +:+ t = t.
Proof. reflexivity. Qed.

Lemma append_String c (s t : string) : String c s +:+ t = String c (s +:+ t).
Proof. reflexivity. Qed.

Lemma length_append (s t : string) :
  String.length (s +:+ t) = String.length s + String.length t.
Proof.
  induction s as [|c s IH]; [done|].
  rewrite append_String. simpl. by rewrite IH.
Qed.

Lemma append_same_length_suffix (s1 s2 t1 t2 : string) :
  s1 +:+ t1 = s2 +:+ t2 → String.length t1 = String.length t2 → s1 = s2 ∧ t1 = t2.
Proof.
  revert s2. induction s1 as [|c s1 IH]; intros [|c2 s2] Heq Hlen;
    rewrite ?append_empty, ?append_String in Heq.
  - done.
  - apply (f_equal String.length) in Heq. simpl in Heq.
    rewrite length_append in Heq. lia.
  - apply (f_equal String.length) in Heq. simpl in Heq.
    rewrite length_append in Heq. lia.
  - injection Heq as -> Heq. destruct (IH _ Heq Hlen) as [-> ->]. done.
Qed.









Section Allocator.

Variable hash : path → string.
Hypothesis hash_fixed_length : ∀ p, String.length (hash p) = hash_length.

Lemma logical_id_hash p p' :
  logical_id hash p = logical_id hash p' → hash p = hash p'.
Proof.
  unfold logical_id. intros Heq.
  apply append_same_length_suffix in Heq as [_ ?]; [done|].
  by rewrite !hash_fixed_length.
Qed.












End Allocator.




(** The ids of the expected templates have the shape of [logical_id]: they
    stay within the identifier alphabet and end in eight hexadecimal digits. *)
Lemma template_ids_shape :
  Forall (λ id, strip id = id ∧ hash_length < String.length id
                ∧ all_chars is_hex_digit (suffix id) = true)
    (logical_ids bucket_deployment_expected ++ logical_ids pipeline_jenkins_expected).
Proof. apply (bool_decide_unpack _). by vm_compute. Qed.

(** The prefix of two ids of the bucket deployment template, from the paths
    the template's descriptions give. *)
Lemma destination_id hash :
  hash ["Destination"] = "920A3C57" →
  logical_id hash ["Destination"] ∈ logical_ids bucket_deployment_expected.
Proof. unfold logical_id. intros ->. vm_compute. set_solver. Qed.

Lemma code_bucket_parameter_id hash :
  hash code_bucket_path = "6E5FB2B7" →
  is_Some (lookup_path [Key "Parameters"; Key (logical_id hash code_bucket_path)]
             bucket_deployment_expected).
Proof. unfold logical_id. intros ->. vm_compute. eauto. Qed.

End LogicalIdFacts.

Module DepGraphFacts.
Import DepGraph.

Section Graph.

Context {node : Type} `{EqDecision node}.
Implicit Types (g : graph node) (n d : node) (stack finished path : list node).

Lemma elem_of_dependencies g n d : d ∈ dependencies g n ↔ depends_on g n d.
Proof.
  unfold dependencies, depends_on. rewrite list_elem_of_fmap. split.
  - intros ([a b] & -> & Hin). apply list_elem_of_filter in Hin as [Ha Hin].
    simpl in *. by subst.
  - intros Hin. exists (n, d). split; [done|].
    apply list_elem_of_filter. by split.
Qed.

Lemma well_formed_edge g a b :
  well_formed g → depends_on g a b → a ∈ nodes g ∧ b ∈ nodes g.
Proof.
  intros [_ Hall] Hin. rewrite Forall_forall in Hall. exact (Hall _ Hin).
Qed.

(** *** The traversal never runs out of fuel *)

Lemma visit_each_fuel (step : list node → node → traversal) finished ns :
  (∀ f n, n ∈ ns → step f n ≠ OutOfFuel) →
  visit_each step finished ns ≠ OutOfFuel.
Proof.
  revert finished. induction ns as [|n ns IH]; intros finished Hstep; simpl.
  - discriminate.
  - destruct (step finished n) eqn:Hn.
    + apply IH. intros f m Hm. apply Hstep. by right.
    + discriminate.
    + exfalso. eapply Hstep; [|exact Hn]. by left.
Qed.

Lemma stack_depth g stack :
  NoDup stack → (∀ x, x ∈ stack → x ∈ nodes g) → length stack ≤ length (nodes g).
Proof.
  intros Hnd Hsub. apply submseteq_length. by apply NoDup_submseteq.
Qed.

Lemma visit_fuel g fuel stack finished n :
  well_formed g → NoDup stack → (∀ x, x ∈ stack → x ∈ nodes g) →
  length (nodes g) < fuel + length stack →
  visit fuel g stack finished n ≠ OutOfFuel.
Proof.
  intros Hwf. revert stack finished n.
  induction fuel as [|fuel IH]; intros stack finished n Hnd Hsub Hlen.
  - pose proof (stack_depth g stack Hnd Hsub). simpl in Hlen. lia.
  - simpl. destruct (decide (n ∈ stack)) as [|Hn]; [discriminate|].
    destruct (decide (n ∈ finished)); [discriminate|].
    destruct (visit_each _ _ _) eqn:Heach; try discriminate.
    exfalso. revert Heach. apply visit_each_fuel.
    intros f d Hd. apply IH.
    + by apply NoDup_cons.
    + intros x [->|Hx]%elem_of_cons; [|by apply Hsub].
      apply elem_of_dependencies in Hd.
      by destruct (well_formed_edge g _ _ Hwf Hd).
    + simpl. lia.
Qed.

Lemma check_cycles_fuel g : well_formed g → check_cycles g ≠ OutOfFuel.
Proof.
  intros Hwf. unfold check_cycles. apply visit_each_fuel.
  intros f n _. apply visit_fuel; [done|constructor| |simpl; lia].
  intros x Hx. by apply elem_of_nil in Hx.
Qed.

(** *** A reported cycle is a cycle of the graph *)

Lemma visit_each_cycle (step : list node → node → traversal) finished ns path :
  visit_each step finished ns = Cycle path →
  ∃ f n, n ∈ ns ∧ step f n = Cycle path.
Proof.
  revert finished. induction ns as [|n ns IH]; intros finished; simpl.
  - discriminate.
  - destruct (step finished n) eqn:Hn.
    + intros (f & m & Hm & Hstep)%IH. exists f, m. split; [by right|done].
    + intros [= <-]. exists finished, n. split; [by left|done].
    + discriminate.
Qed.

Lemma chain_app_r g l1 l2 : chain g (l1 ++ l2) → chain g l2.
Proof.
  induction l1 as [|a l1 IH]; [done|].
  destruct l1 as [|b l1]; simpl.
  - destruct l2; [done|]. by intros [_ ?].
  - intros [_ Hrest]. by apply IH.
Qed.

Lemma chain_snoc g l x :
  chain g l → (∀ y, last l = Some y → depends_on g y x) → chain g (l ++ [x]).
Proof.
  induction l as [|a l IH]; [done|].
  destruct l as [|b l]; simpl.
  - intros _ Hlast. split; [by apply Hlast|done].
  - intros [Hab Hrest] Hlast. split; [done|]. by apply IH.
Qed.

Lemma down_to_prefix n stack :
  n ∈ stack → ∃ rest, stack = down_to n stack ++ rest.
Proof.
  induction stack as [|x stack IH]; intros Hn.
  - by apply elem_of_nil in Hn.
  - simpl. destruct (decide (x = n)) as [->|Hne].
    + by exists stack.
    + apply elem_of_cons in Hn as [->|Hn]; [done|].
      destruct (IH Hn) as [rest Hrest]. exists rest. simpl. by f_equal.
Qed.

Lemma down_to_head n stack : head (down_to n stack) = head stack.
Proof. destruct stack as [|x stack]; [done|]. simpl. by destruct (decide (x = n)). Qed.

Lemma down_to_last n stack : n ∈ stack → last (down_to n stack) = Some n.
Proof.
  induction stack as [|x stack IH]; intros Hn.
  - by apply elem_of_nil in Hn.
  - simpl. destruct (decide (x = n)) as [->|Hne]; [done|].
    apply elem_of_cons in Hn as [->|Hn]; [done|].
    specialize (IH Hn). destruct (down_to n stack); [done|]. exact IH.
Qed.

Lemma cycle_path_cycle g stack n :
  chain g (reverse stack) →
  (∀ top, head stack = Some top → depends_on g top n) →
  n ∈ stack → cycle_of g (cycle_path stack n).
Proof.
  intros Hchain Htop Hn. unfold cycle_path.
  destruct (down_to_prefix n stack Hn) as [rest Hrest].
  split.
  - rewrite Hrest, reverse_app in Hchain. by apply chain_app_r in Hchain.
  - destruct stack as [|top stack]; [by apply elem_of_nil in Hn|].
    exists n, top. split_and!.
    + rewrite head_reverse. by apply down_to_last.
    + rewrite last_reverse, down_to_head. done.
    + by apply Htop.
Qed.

Lemma visit_cycle g fuel stack finished n path :
  chain g (reverse stack) →
  (∀ top, head stack = Some top → depends_on g top n) →
  visit fuel g stack finished n = Cycle path → cycle_of g path.
Proof.
  revert stack finished n.
  induction fuel as [|fuel IH]; intros stack finished n Hchain Htop; simpl.
  - discriminate.
  - destruct (decide (n ∈ stack)) as [Hn|Hn].
    { intros [= <-]. by apply cycle_path_cycle. }
    destruct (decide (n ∈ finished)); [discriminate|].
    destruct (visit_each _ _ _) eqn:Heach; try discriminate.
    intros [= <-].
    apply visit_each_cycle in Heach as (f & d & Hd & Hvisit).
    apply IH in Hvisit; [done| |].
    + rewrite reverse_cons. apply chain_snoc; [done|].
      intros y Hy. apply Htop. by rewrite last_reverse in Hy.
    + intros top [= <-]. by apply elem_of_dependencies.
Qed.

Lemma check_cycles_cycle g path : check_cycles g = Cycle path → cycle_of g path.
Proof.
  unfold check_cycles. intros (f & n & _ & Hvisit)%visit_each_cycle.
  by apply visit_cycle in Hvisit.
Qed.

(** A full cycle makes the graph cyclic: its first node depends on itself
    through the chain and the closing edge. *)
Lemma chain_rtc g a l z :
  chain g (a :: l) → last (a :: l) = Some z → rtc (depends_on g) a z.
Proof.
  revert a. induction l as [|b l IH]; intros a; simpl.
  - intros _ [= <-]. done.
  - intros [Hab Hrest] Hlast. eapply rtc_l; [exact Hab|]. by apply IH.
Qed.

Lemma cycle_of_cyclic g path : cycle_of g path → cyclic g.
Proof.
  intros (Hchain & first & final & Hhead & Hlast & Hclose).
  destruct path as [|a l]; [done|]. simpl in Hhead. injection Hhead as ->.
  exists first. eapply tc_rtc_l; [by eapply chain_rtc|]. by apply tc_once.
Qed.

(** *** A finished traversal leaves every node after its dependencies *)

Lemma visit_each_done (step : list node → node → traversal)
    (I : list node → Prop) finished ns finished' :
  (∀ f n f', n ∈ ns → I f → step f n = Done f' →
             I f' ∧ (∀ x, x ∈ f → x ∈ f') ∧ n ∈ f') →
  I finished → visit_each step finished ns = Done finished' →
  I finished' ∧ (∀ x, x ∈ finished → x ∈ finished') ∧ (∀ n, n ∈ ns → n ∈ finished').
Proof.
  revert finished. induction ns as [|n ns IH]; intros finished Hstep HI; simpl.
  - intros [= <-]. split_and!; [done|done|].
    intros n Hn. by apply elem_of_nil in Hn.
  - destruct (step finished n) as [f1| |] eqn:Hn; try discriminate.
    intros Hrest.
    destruct (Hstep finished n f1) as (HI1 & Hsub1 & Hn1); [by left|done|done|].
    destruct (IH f1) as (HI' & Hsub' & Hall'); [|done|done|].
    { intros f m f' Hm. apply Hstep. by right. }
    split_and!; [done|by auto|].
    intros m [->|Hm]%elem_of_cons; auto.
Qed.

Lemma visit_done g fuel stack finished n finished' :
  finished_ok g finished → (∀ x, x ∈ stack → x ∉ finished) →
  visit fuel g stack finished n = Done finished' →
  (finished_ok g finished' ∧ ∀ x, x ∈ stack → x ∉ finished')
  ∧ (∀ x, x ∈ finished → x ∈ finished') ∧ n ∈ finished'.
Proof.
  revert stack finished n finished'.
  induction fuel as [|fuel IH]; intros stack finished n finished' Hok Hdisj; simpl.
  - discriminate.
  - destruct (decide (n ∈ stack)) as [|Hn]; [discriminate|].
    destruct (decide (n ∈ finished)) as [Hfin|Hfin].
    { intros [= <-]. done. }
    destruct (visit_each _ _ _) as [f1| |] eqn:Heach; try discriminate.
    intros [= <-].
    apply (visit_each_done _
             (λ f, finished_ok g f ∧ ∀ x, x ∈ n :: stack → x ∉ f)) in Heach
      as ((Hok1 & Hdisj1) & Hsub1 & Hdeps1).
    + split_and!.
      * simpl. split_and!; [|intros d Hd; by apply Hdeps1, elem_of_dependencies|done].
        apply Hdisj1. by left.
      * intros x Hx [->|Hx1]%elem_of_cons; [done|].
        eapply Hdisj1; [|exact Hx1]. by right.
      * intros x Hx. right. by apply Hsub1.
      * by left.
    + intros f d f' _ [Hokf Hdisjf] Hvisit. by eapply IH.
    + split; [done|]. intros x [->|Hx]%elem_of_cons; auto.
Qed.

Lemma check_cycles_done g finished :
  check_cycles g = Done finished →
  finished_ok g finished ∧ ∀ n, n ∈ nodes g → n ∈ finished.
Proof.
  unfold check_cycles. intros Heach.
  apply (visit_each_done _ (finished_ok g)) in Heach as (Hok & _ & Hall); [done| |done].
  intros f n f' _ Hokf Hvisit.
  apply visit_done in Hvisit as ((? & _) & ? & ?); [done|done|].
  intros x Hx. by apply elem_of_nil in Hx.
Qed.

(** *** A finished list rules cycles out *)

Lemma finished_closed g finished a b :
  finished_ok g finished → a ∈ finished → depends_on g a b → b ∈ finished.
Proof.
  induction finished as [|x l IH]; simpl.
  - intros _ Ha. by apply elem_of_nil in Ha.
  - intros (_ & Hdeps & Hok) [->|Ha]%elem_of_cons Hab; right; eauto.
Qed.

Lemma finished_closed_rtc g finished a b :
  finished_ok g finished → a ∈ finished → rtc (depends_on g) a b → b ∈ finished.
Proof.
  intros Hok Ha Hab. induction Hab as [|a c b Hac _ IH]; [done|].
  apply IH. by eapply finished_closed.
Qed.

Lemma finished_acyclic g finished n :
  finished_ok g finished → n ∈ finished → ¬ tc (depends_on g) n n.
Proof.
  induction finished as [|x l IH]; simpl.
  - intros _ Hn. by apply elem_of_nil in Hn.
  - intros (Hfresh & Hdeps & Hok) [->|Hn]%elem_of_cons Hcycle; [|by eapply IH].
    apply Hfresh.
    assert (∃ d, depends_on g x d ∧ rtc (depends_on g) d x) as (d & Hxd & Hdx).
    { inversion Hcycle as [? ? Hstep|? d ? Hstep Hrest]; subst.
      - by exists x.
      - exists d. split; [done|]. by apply tc_rtc. }
    eapply finished_closed_rtc; [done| |done]. by apply Hdeps.
Qed.

Lemma cyclic_node_declared g n :
  well_formed g → tc (depends_on g) n n → n ∈ nodes g.
Proof.
  intros Hwf Hcycle.
  inversion Hcycle as [? ? Hstep|? d ? Hstep _]; subst;
    by destruct (well_formed_edge g _ _ Hwf Hstep).
Qed.

Lemma check_cycles_done_acyclic g finished :
  well_formed g → check_cycles g = Done finished → ¬ cyclic g.
Proof.
  intros Hwf (Hok & Hall)%check_cycles_done [n Hn].
  eapply finished_acyclic; [done| |done].
  by apply Hall, cyclic_node_declared.
Qed.

(** *** Emission: without a cycle some remaining node is always ready *)

Lemma finished_minimal g finished (P : node → Prop) `{!∀ x, Decision (P x)} :
  finished_ok g finished → (∃ x, x ∈ finished ∧ P x) →
  ∃ n, n ∈ finished ∧ P n ∧ ∀ d, depends_on g n d → ¬ P d.
Proof.
  induction finished as [|x l IH]; simpl.
  - intros _ (x & Hx & _). by apply elem_of_nil in Hx.
  - intros (Hfresh & Hdeps & Hok) (y & Hy & HPy).
    destruct (decide (Exists P l)) as [Hex|Hnone].
    + apply Exists_exists in Hex.
      destruct (IH Hok Hex) as (n & Hn & HPn & Hmin).
      exists n. split_and!; [by right|done|done].
    + assert (∀ z, z ∈ l → ¬ P z) as Hnot.
      { intros z Hz HPz. apply Hnone, Exists_exists. eauto. }
      apply elem_of_cons in Hy as [->|Hy]; [|by destruct (Hnot y Hy)].
      exists x. split_and!; [by left|done|].
      intros d Hd. by apply Hnot, Hdeps.
Qed.

Lemma respects_edges_snoc g emitted n :
  respects_edges g emitted → ready g emitted n → respects_edges g (emitted ++ [n]).
Proof.
  intros Hres Hready i a b Hi Hab.
  destruct (decide (i < length emitted)) as [Hlt|Hge].
  - rewrite lookup_app_l in Hi by done.
    destruct (Hres i a b Hi Hab) as (j & Hj & Hjb).
    exists j. split; [done|]. rewrite lookup_app_l by lia. done.
  - rewrite lookup_app_r in Hi by lia.
    destruct (i - length emitted) as [|k] eqn:Hk; [|by destruct k].
    simpl in Hi. injection Hi as <-.
    unfold ready in Hready. rewrite Forall_forall in Hready.
    specialize (Hready b (proj2 (elem_of_dependencies g n b) Hab)).
    apply list_elem_of_lookup in Hready as [j Hj].
    exists j. split.
    + apply lookup_lt_Some in Hj. lia.
    + by apply lookup_app_l_Some.
Qed.

Lemma emit_step g fuel emitted remaining :
  remaining ≠ [] →
  emit (S fuel) g emitted remaining =
    match list_find (ready g emitted) remaining with
    | Some (i, n) => emit fuel g (emitted ++ [n]) (delete i remaining)
    | None => None
    end.
Proof. by destruct remaining. Qed.

Lemma emit_total g finished fuel emitted remaining :
  well_formed g → finished_ok g finished → (∀ n, n ∈ nodes g → n ∈ finished) →
  emitted ++ remaining ≡ₚ nodes g → respects_edges g emitted →
  length remaining ≤ fuel →
  ∃ l, emit fuel g emitted remaining = Some l
       ∧ l ≡ₚ nodes g ∧ respects_edges g l.
Proof.
  intros Hwf Hok Hall. revert emitted remaining.
  induction fuel as [|fuel IH]; intros emitted remaining Hperm Hres Hlen.
  - destruct remaining; [|simpl in Hlen; lia].
    exists emitted. rewrite app_nil_r in Hperm. done.
  - destruct remaining as [|r0 remaining0] eqn:Hrem.
    { exists emitted. rewrite app_nil_r in Hperm. done. }
    rewrite <- Hrem in *. rewrite emit_step by (by rewrite Hrem).
    assert (NoDup (emitted ++ remaining)) as Hnd.
    { rewrite Hperm. by destruct Hwf. }
    destruct (finished_minimal g finished (λ x, x ∈ remaining) Hok)
      as (m & _ & Hm & Hmin).
    { exists r0. split; [|rewrite Hrem; by left].
      apply Hall. rewrite <- Hperm, Hrem. apply elem_of_app. right. by left. }
    assert (ready g emitted m) as Hready.
    { unfold ready. apply Forall_forall. intros d Hd%elem_of_dependencies.
      destruct (well_formed_edge g _ _ Hwf Hd) as [_ Hdn].
      rewrite <- Hperm in Hdn. apply elem_of_app in Hdn as [?|Hdr]; [done|].
      by destruct (Hmin d Hd). }
    destruct (list_find (ready g emitted) remaining) as [[i n]|] eqn:Hfind.
    + apply list_find_Some in Hfind as (Hi & Hn & _).
      apply IH.
      * rewrite <- Hperm, <- app_assoc. simpl.
        apply Permutation_app_head. symmetry. by apply delete_Permutation.
      * by apply respects_edges_snoc.
      * rewrite length_delete by eauto. lia.
    + exfalso. rewrite list_find_None, Forall_forall in Hfind.
      by apply (Hfind m).
Qed.

Lemma emission_order_total g finished :
  well_formed g → check_cycles g = Done finished →
  ∃ l, emission_order g = Some l ∧ l ≡ₚ nodes g ∧ respects_edges g l.
Proof.
  intros Hwf (Hok & Hall)%check_cycles_done. unfold emission_order.
  eapply emit_total; [done|done|done|done| |done].
  intros i a b Hi. by rewrite lookup_nil in Hi.
Qed.


(** *** Cycle rejection and emission order *)

Lemma order_cyclic g :
  well_formed g → cyclic g →
  ∃ path, order g = CyclicDependencyError path ∧ cycle_of g path.
Proof.
  intros Hwf Hcyclic. unfold order.
  destruct (check_cycles g) as [finished|path|] eqn:Hcheck.
  - by destruct (check_cycles_done_acyclic g finished Hwf Hcheck).
  - exists path. split; [done|]. by apply check_cycles_cycle.
  - by destruct (check_cycles_fuel g Hwf).
Qed.

Lemma order_acyclic g :
  well_formed g → ¬ cyclic g →
  ∃ l, order g = Emission l ∧ l ≡ₚ nodes g ∧ respects_edges g l.
Proof.
  intros Hwf Hacyclic. unfold order.
  destruct (check_cycles g) as [finished|path|] eqn:Hcheck.
  - destruct (emission_order_total g finished Hwf Hcheck) as (l & -> & Hl).
    by exists l.
  - destruct Hacyclic. by apply cycle_of_cyclic with path, check_cycles_cycle.
  - by destruct (check_cycles_fuel g Hwf).
Qed.

(** Ordering always ends: with the emission order or with a cycle. *)
Lemma order_total g : well_formed g → order g ≠ Stuck.
Proof.
  intros Hwf. unfold order.
  destruct (check_cycles g) as [finished|path|] eqn:Hcheck.
  - by destruct (emission_order_total g finished Hwf Hcheck) as (l & -> & _).
  - done.
  - by destruct (check_cycles_fuel g Hwf).
Qed.

(** C8: a graph with a cycle is rejected with a cycle error whose path is a
    full cycle of the graph (each named node depends on the next, the last on
    the first); a graph without one is emitted, every node once, each after
    the nodes it depends on. *)
Theorem order_rejects_cycles_and_sorts g :
  well_formed g →
  (cyclic g → ∃ path, order g = CyclicDependencyError path ∧ cycle_of g path)
  ∧ (¬ cyclic g →
     ∃ l, order g = Emission l ∧ l ≡ₚ nodes g ∧ respects_edges g l).
Proof.
  intros Hwf. split; [by apply order_cyclic|by apply order_acyclic].
Qed.

End Graph.

(** The scenario of the specification: [A→B→C→A] is rejected naming the
    three nodes, [A→B→C] is emitted dependencies first. *)
Lemma abc_cycle_well_formed : well_formed abc_cycle.
Proof. apply (bool_decide_unpack _). by vm_compute. Qed.

Lemma abc_chain_well_formed : well_formed abc_chain.
Proof. apply (bool_decide_unpack _). by vm_compute. Qed.

Lemma abc_cycle_cyclic : cyclic abc_cycle.
Proof. apply cycle_of_cyclic with ["A"; "B"; "C"], check_cycles_cycle. reflexivity. Qed.

Lemma abc_chain_acyclic : ¬ cyclic abc_chain.
Proof.
  apply check_cycles_done_acyclic with ["A"; "B"; "C"];
    [exact abc_chain_well_formed|reflexivity].
Qed.

Lemma order_abc_cycle : order abc_cycle = CyclicDependencyError ["A"; "B"; "C"].
Proof. reflexivity. Qed.

Lemma order_abc_chain : order abc_chain = Emission ["C"; "B"; "A"].
Proof. reflexivity. Qed.

Lemma order_rejects_cycles_and_sorts_abc :
  (∃ path, order abc_cycle = CyclicDependencyError path ∧ cycle_of abc_cycle path)
  ∧ (∃ l, order abc_chain = Emission l ∧ l ≡ₚ nodes abc_chain
          ∧ respects_edges abc_chain l).
Proof.
  split.
  - exact (proj1 (order_rejects_cycles_and_sorts abc_cycle abc_cycle_well_formed)
             abc_cycle_cyclic).
  - exact (proj2 (order_rejects_cycles_and_sorts abc_chain abc_chain_well_formed)
             abc_chain_acyclic).
Defined.

End DepGraphFacts.

Module AssemblerFacts.
Import Json Snapshots LogicalId Intrinsics DepGraph Assembler.
Import LogicalIdFacts DepGraphFacts IntrinsicsFacts.

Lemma elem_of_flat_map {A B} (f : A → list B) (l : list A) y :
  y ∈ flat_map f l ↔ ∃ x, y ∈ f x ∧ x ∈ l.
Proof.
  induction l as [|x l IH]; simpl.
  - split; [by intros ?%elem_of_nil|]. by intros (x & _ & ?%elem_of_nil).
  - rewrite elem_of_app, IH. split.
    + intros [?|(x' & ? & ?)]; [exists x|exists x']; split; try done;
        [by left|by right].
    + intros (x' & Hy & [->|Hx']%elem_of_cons); [by left|right; by exists x'].
Qed.

(** *** The graph of a boundary *)

Lemma addDependency_within N g a b :
  within N g → a ∈ N → b ∈ N → within N (addDependency g a b).
Proof.
  intros [Hnodes Hedges] Ha Hb. unfold addDependency.
  destruct (decide _); [done|]. split; [done|]. simpl.
  apply Forall_app. split; [done|]. by repeat constructor.
Qed.

Lemma add_all_within N g a ds :
  within N g → a ∈ N → Forall (λ d, d ∈ N) ds →
  within N (foldl (λ g d, addDependency g a d) g ds).
Proof.
  intros Hg Ha Hds. revert g Hg.
  induction Hds as [|d ds Hd _ IH]; intros g Hg; simpl; [done|].
  apply IH. by apply addDependency_within.
Qed.

Lemma add_entities_within s (edges_of : entity → list path) es g :
  (∀ e, Forall (λ d, d ∈ node <$> entities s) (edges_of e)) →
  (∀ e, e ∈ es → e ∈ entities s) →
  within (node <$> entities s) g →
  within (node <$> entities s)
    (foldl (λ g e, foldl (λ g d, addDependency g (node e) d) g (edges_of e)) g es).
Proof.
  intros Hlocal. revert g.
  induction es as [|e es IH]; intros g Hsub Hg; simpl; [done|].
  apply IH; [intros e' He'; apply Hsub; by right|].
  apply add_all_within; [done| |apply Hlocal].
  apply list_elem_of_fmap. exists e. split; [done|]. apply Hsub. by left.
Qed.

Lemma declared_edges_local s e :
  Forall (λ d, d ∈ node <$> entities s) (declared_edges s e).
Proof.
  apply Forall_forall. intros d Hd. by apply list_elem_of_filter in Hd as [? _].
Qed.

Lemma implied_edges_local s e :
  Forall (λ d, d ∈ node <$> entities s) (implied_edges s e).
Proof.
  apply Forall_forall. intros d Hd. by apply list_elem_of_filter in Hd as [? _].
Qed.

Lemma declared_graph_within s : within (node <$> entities s) (declared_graph s).
Proof.
  apply add_entities_within; [apply declared_edges_local|done|].
  split; [done|]. constructor.
Qed.

Lemma graph_of_within s : within (node <$> entities s) (graph_of s).
Proof.
  apply add_entities_within; [apply implied_edges_local|done|].
  apply declared_graph_within.
Qed.

Lemma graph_of_well_formed s :
  NoDup (node <$> entities s) → well_formed (graph_of s).
Proof.
  intros Hnd. destruct (graph_of_within s) as [Hnodes Hedges].
  split; rewrite Hnodes; done.
Qed.


(** *** The explicit edges: each one once *)












(** *** How synthesis ends *)

Lemma allocate_all_failure hash a ps failure :
  allocate_all hash a ps = inl failure →
  ∃ id first second, failure = AllocationError id first second.
Proof.
  revert a. induction ps as [|p ps IH]; intros a; simpl; [discriminate|].
  destruct (allocate hash a p) as [id a'|id first second] eqn:Halloc.
  - apply IH.
  - intros [= <-]. eauto.
Qed.

(** Synthesis always ends, with a template or with one of the fatal errors;
    a cycle in the boundary's graph is passed on with its path. *)
Lemma synthesize_total hash s :
  NoDup (node <$> entities s) → synthesize hash s ≠ Unordered.
Proof.
  intros Hwf%graph_of_well_formed. unfold synthesize.
  pose proof (order_total _ Hwf) as Htotal.
  destruct (order (graph_of s)) as [l|cycle|]; [|done|done].
  destruct (foreign_references s) as [|[consumer producer] rest]; [|done].
  destruct (allocate_all hash empty l) as [failure|a] eqn:Hall; [|done].
  by apply allocate_all_failure in Hall as (id & first & second & ->).
Qed.

Lemma synthesize_cyclic hash s :
  NoDup (node <$> entities s) → cyclic (graph_of s) →
  ∃ path, synthesize hash s = CyclicDependency path ∧ cycle_of (graph_of s) path.
Proof.
  intros Hwf%graph_of_well_formed Hcyclic. unfold synthesize.
  destruct (order_cyclic _ Hwf Hcyclic) as (path & -> & Hpath). by exists path.
Qed.

(** A token whose producer is not a node of the boundary ends the synthesis
    of an acyclic boundary with the fatal error: no template names a node
    without an id. *)
Lemma synthesize_foreign_reference hash s e p :
  e ∈ entities s → p ∈ flat_map (λ f, producers f.2) (properties e) →
  ¬ local s p → ∀ doc, synthesize hash s ≠ Template doc.
Proof.
  intros He Hp Hforeign doc. unfold synthesize.
  destruct (order (graph_of s)) as [l|cycle|]; [|done|done].
  destruct (foreign_references s) as [|[consumer producer] rest] eqn:Hnone; [|done].
  assert ((node e, p) ∈ foreign_references s) as Hin; [|by rewrite Hnone in Hin;
    apply elem_of_nil in Hin].
  unfold foreign_references. apply elem_of_flat_map. exists e. split; [|done].
  apply list_elem_of_fmap_2, list_elem_of_filter. by split.
Qed.

(** *** Ids and records in the template *)







(** *** References in resolved properties *)



Section References.

Variable id_of : path → string.






End References.

(** *** Dependencies in the template *)


Lemma pipeline_record_edges :
  ∃ record,
    assoc "PipelineC660917D" (resources pipeline_jenkins_expected) = Some record
    ∧ local_references pipeline_jenkins_expected record
        = ["MyBucketF68F3FF0"; "PipelineRoleD68726F7"; "MyBucketF68F3FF0"]
    ∧ dependsOn record = ["PipelineRoleD68726F7"; "PipelineRoleDefaultPolicyC7A05455"].
Proof. eexists. split_and!; reflexivity. Qed.

(** Nor does the bucket deployment template annotate them: the policy of the
    destination bucket refers to the bucket and has no [DependsOn] at all. *)
Lemma bucket_policy_edge_not_annotated :
  ¬ every_edge_annotated bucket_deployment_expected.
Proof. apply (bool_decide_unpack _). by vm_compute. Qed.


(** The two boundaries synthesize to the [Resources] of the expected
    templates, record by record and id by id. *)
Lemma bucket_deployment_synthesis :
  synthesize expected_hash bucket_deployment_stack
    = Template (template_of bucket_deployment_stack)
  ∧ resources (template_of bucket_deployment_stack)
    = resources bucket_deployment_expected.
Proof. split; by vm_compute. Qed.


Lemma pipeline_ids :
  logical_id expected_hash (node jenkins_Pipeline) = "PipelineC660917D"
  ∧ logical_id expected_hash ["Pipeline"; "Role"] = "PipelineRoleD68726F7"
  ∧ logical_id expected_hash ["MyBucket"] = "MyBucketF68F3FF0".
Proof. split_and!; by vm_compute. Qed.


(** The layout of the expected template is not an emission order: the custom
    resource [DeployMe] is laid out before the function its service token
    refers to. *)
Lemma bucket_deployment_layout_not_emission_order :
  ¬ respects_edges (graph_of bucket_deployment_stack)
      (node <$> entities bucket_deployment_stack).
Proof.
  intros Hrespects.
  destruct (Hrespects 2 ["DeployMe"; "CustomResource"] (node deployment_Function))
    as (j & Hj & Hlookup); [done|by unfold depends_on; apply (bool_decide_unpack _); vm_compute|].
  destruct j as [|[|j]]; [discriminate Hlookup|discriminate Hlookup|lia].
Qed.

End AssemblerFacts.

Module VpcMoreFacts.
Import Vpc.

Section Subnets.

Variable subnetName_of : IVpcSubnet → string.

(** [subnets] by the shape of the placement it is given. *)
Lemma subnets_unfold vpc placement_arg required_arg :
  subnets subnetName_of vpc placement_arg required_arg =
    match default no_placement placement_arg with
    | {| subnetsToUse := Some _; subnetName := Some _ |} => Throw at_most_one_error
    | {| subnetsToUse := None; subnetName := Some name |} =>
        if (length (selectedSubnets subnetName_of vpc name) =? 0)%nat
        then Throw (no_subnets_with_name_error name)
        else Return (selectedSubnets subnetName_of vpc name)
    | {| subnetsToUse := None; subnetName := None |} => Return (privateSubnets vpc)
    | {| subnetsToUse := Some t; subnetName := None |} =>
        if bool_decide (default Required required_arg = Required)
           && (length (selected vpc t) =? 0)%nat
        then Throw (no_subnets_match_error (by_type t))
        else Return (selected vpc t)
    end.
Proof. by destruct placement_arg as [[[t|] [name|]]|]. Qed.

Lemma selected_sublist vpc t :
  selected vpc t `sublist_of`
    privateSubnets vpc ++ publicSubnets vpc ++ isolatedSubnets vpc.
Proof.
  destruct t; simpl.
  - by do 2 apply sublist_inserts_l.
  - by apply sublist_inserts_r.
  - by apply sublist_inserts_l, sublist_inserts_r.
Qed.

(** X1: whatever [subnets] returns is taken from the network's own subnets,
    in their order (private, public, isolated) and without repeating any:
    the returned list is a sublist of the three lists put together. *)
Theorem subnets_returns_own_subnets vpc placement_arg required_arg l :
  subnets subnetName_of vpc placement_arg required_arg = Return l →
  l `sublist_of` privateSubnets vpc ++ publicSubnets vpc ++ isolatedSubnets vpc.
Proof.
  rewrite subnets_unfold.
  destruct (default no_placement placement_arg) as [[t|] [name|]].
  - discriminate.
  - destruct (_ && _); [discriminate|]. intros [= <-]. apply selected_sublist.
  - destruct (_ =? _)%nat; [discriminate|]. intros [= <-]. apply sublist_filter.
  - intros [= <-]. by apply sublist_inserts_r.
Qed.

(** X2: a selection by name spans the three types: it returns the private
    subnets of that name, then the public ones, then the isolated ones, and
    a subnet is returned exactly when it belongs to the network and has the
    name. *)
Theorem subnets_by_name_spans_types vpc name required_arg l :
  subnets subnetName_of vpc (Some (by_name name)) required_arg = Return l →
  l = filter (λ s, subnetName_of s = name) (privateSubnets vpc)
      ++ filter (λ s, subnetName_of s = name) (publicSubnets vpc)
      ++ filter (λ s, subnetName_of s = name) (isolatedSubnets vpc)
  ∧ ∀ s, s ∈ l ↔ (s ∈ privateSubnets vpc ∨ s ∈ publicSubnets vpc
                   ∨ s ∈ isolatedSubnets vpc) ∧ subnetName_of s = name.
Proof.
  rewrite subnets_unfold. simpl.
  destruct (_ =? _)%nat; [discriminate|]. intros [= <-].
  unfold selectedSubnets. split.
  - by rewrite !filter_app.
  - intros s. rewrite list_elem_of_filter, !elem_of_app. tauto.
Qed.

(** X3: the only ways to get an empty list: no constraint at all on a
    network without private subnets, or a selection by type in the
    [AllowNone] mode whose list is empty. *)
Theorem subnets_returns_empty_iff vpc placement_arg required_arg :
  subnets subnetName_of vpc placement_arg required_arg = Return [] ↔
    (default no_placement placement_arg = no_placement ∧ privateSubnets vpc = [])
    ∨ (∃ t, default no_placement placement_arg = by_type t
            ∧ default Required required_arg = AllowNone ∧ selected vpc t = []).
Proof.
  rewrite subnets_unfold.
  destruct (default no_placement placement_arg) as [[t|] [name|]];
    unfold no_placement, by_type; simpl.
  - split; [discriminate|]. by intros [[[=] _]|(t' & [=] & _)].
  - destruct (default Required required_arg) eqn:Hmode,
             (selected vpc t) as [|s l] eqn:Hsel; simpl.
    + split; [discriminate|]. by intros [[[=] _]|(t' & _ & [=] & _)].
    + split; [discriminate|].
      intros [[[=] _]|(t' & [= <-] & _ & Hempty)]. by rewrite Hsel in Hempty.
    + split; [|done]. intros _. right. by exists t.
    + split; [discriminate|].
      intros [[[=] _]|(t' & [= <-] & _ & Hempty)]. by rewrite Hsel in Hempty.
  - destruct (selectedSubnets subnetName_of vpc name) as [|s l] eqn:Hsel; simpl.
    + split; [discriminate|]. by intros [[[=] _]|(t' & [=] & _)].
    + split; [discriminate|]. by intros [[[=] _]|(t' & [=] & _)].
  - split.
    + intros [= ->]. by left.
    + by intros [[_ ->]|(t' & [=] & _)].
Qed.

(** X4: the query mode changes the outcome in one situation only: a
    selection by type whose list is empty. *)
Theorem subnets_mode_matters_iff vpc placement_arg required1 required2 :
  subnets subnetName_of vpc placement_arg required1
    ≠ subnets subnetName_of vpc placement_arg required2 ↔
  ∃ t, default no_placement placement_arg = by_type t ∧ selected vpc t = []
       ∧ default Required required1 ≠ default Required required2.
Proof.
  rewrite !subnets_unfold.
  destruct (default no_placement placement_arg) as [[t|] [name|]];
    unfold by_type; simpl.
  - split; [done|]. by intros (t' & [=] & _).
  - destruct (selected vpc t) as [|s l] eqn:Hsel.
    + destruct (default Required required1), (default Required required2);
        simpl; (split; [intros Hne|intros (t' & _ & _ & Hne)]); try done.
      * by exists t.
      * by exists t.
    + rewrite !andb_false_r. split; [done|].
      intros (t' & [= <-] & Hempty & _). by rewrite Hsel in Hempty.
  - split; [done|]. by intros (t' & [=] & _).
  - split; [done|]. by intros (t' & [=] & _).
Qed.


(** The three messages differ from one another. *)
Lemma messages_distinct name placement :
  at_most_one_error ≠ no_subnets_with_name_error name
  ∧ at_most_one_error ≠ no_subnets_match_error placement
  ∧ no_subnets_with_name_error name ≠ no_subnets_match_error placement.
Proof.
  split_and!; intros Heq.
  - apply (f_equal (String.get 0)) in Heq. by vm_compute in Heq.
  - apply (f_equal (String.get 0)) in Heq. by vm_compute in Heq.
  - apply (f_equal (String.get 11)) in Heq. by vm_compute in Heq.
Qed.

(** X6: a thrown message tells which check failed: the at-most-one message
    means both properties were supplied; the no-such-name message means a
    selection by name that matched no subnet of any type; the no-match
    message means a selection by type, in the [Required] mode, of an empty
    list.  No message has two of these meanings. *)
Theorem subnets_message_tells_failure vpc placement_arg required_arg m :
  subnets subnetName_of vpc placement_arg required_arg = Throw m →
  let placement := default no_placement placement_arg in
  (m = at_most_one_error
     ↔ is_Some (subnetsToUse placement) ∧ is_Some (subnetName placement))
  ∧ ((∃ name, m = no_subnets_with_name_error name)
     ↔ ∃ name, placement = by_name name ∧ m = no_subnets_with_name_error name
               ∧ selectedSubnets subnetName_of vpc name = [])
  ∧ ((∃ p, m = no_subnets_match_error p)
     ↔ ∃ t, placement = by_type t ∧ m = no_subnets_match_error (by_type t)
            ∧ default Required required_arg = Required ∧ selected vpc t = []).
Proof.
  rewrite subnets_unfold. simpl.
  destruct (default no_placement placement_arg) as [[t|] [name|]]; simpl.
  - intros [= <-]. split_and!.
    + split; [by eauto|done].
    + split.
      * intros [n Hn]. by destruct (messages_distinct n no_placement) as (? & _).
      * intros (n & [=] & _).
    + split.
      * intros [p Hp]. by destruct (messages_distinct EmptyString p) as (_ & ? & _).
      * intros (t' & [=] & _).
  - destruct (default Required required_arg) eqn:Hmode;
      destruct (selected vpc t) as [|s l] eqn:Hsel; simpl; try discriminate.
    intros [= <-]. split_and!.
    + split.
      * intros Heq. symmetry in Heq.
        by destruct (messages_distinct EmptyString (by_type t)) as (_ & ? & _).
      * intros [_ [? [=]]].
    + split.
      * intros [n Hn]. symmetry in Hn.
        by destruct (messages_distinct n (by_type t)) as (_ & _ & ?).
      * intros (n & [=] & _).
    + split; [|by eauto]. intros _. by exists t.
  - destruct (selectedSubnets _ _ _) as [|s l] eqn:Hsel; simpl; try discriminate.
    intros [= <-]. split_and!.
    + split.
      * intros Heq. symmetry in Heq.
        by destruct (messages_distinct name no_placement) as (? & _).
      * intros [[? [=]] _].
    + split; [|by eauto]. intros _. by exists name.
    + split.
      * intros [p Hp]. by destruct (messages_distinct name p) as (_ & _ & ?).
      * intros (t' & [=] & _).
  - discriminate.
Qed.

End Subnets.

(** X7: the messages name the selection that failed: two selections by
    name with the same no-such-name message ask for the same name, and two
    selections by type with the same no-match message ask for the same
    type. *)
Theorem messages_identify_selection :
  (∀ name1 name2,
     no_subnets_with_name_error name1 = no_subnets_with_name_error name2 →
     name1 = name2)
  ∧ (∀ t1 t2,
       no_subnets_match_error (by_type t1) = no_subnets_match_error (by_type t2) →
       t1 = t2).
Proof.
  split.
  - intros name1 name2 Heq. cbv in Heq. congruence.
  - intros [] [] Heq; try done; by vm_compute in Heq.
Qed.

(** The theorems at the sample network, the subnets named by their id. *)
Lemma subnets_returns_own_subnets_sample :
  [sample_subnet "Db" "az-a" "subnet-3"]
    `sublist_of` privateSubnets sample_vpc ++ publicSubnets sample_vpc
                   ++ isolatedSubnets sample_vpc.
Proof.
  exact (subnets_returns_own_subnets node_id sample_vpc
           (Some (by_type Isolated)) None _ eq_refl).
Defined.

Lemma subnets_by_name_spans_types_sample :
  privateSubnets sample_vpc
    = filter (λ s, node_id s = "App") (privateSubnets sample_vpc)
      ++ filter (λ s, node_id s = "App") (publicSubnets sample_vpc)
      ++ filter (λ s, node_id s = "App") (isolatedSubnets sample_vpc).
Proof.
  exact (proj1 (subnets_by_name_spans_types node_id sample_vpc "App" None
                  (privateSubnets sample_vpc) eq_refl)).
Defined.

Lemma subnets_message_tells_failure_sample :
  ∃ t, by_type Public = by_type t
       ∧ no_subnets_match_error (by_type Public)
           = no_subnets_match_error (by_type t)
       ∧ Required = Required ∧ selected sample_vpc t = [].
Proof.
  destruct (subnets_message_tells_failure node_id sample_vpc
              (Some (by_type Public)) None
              (no_subnets_match_error (by_type Public)) eq_refl)
    as (_ & _ & Hcause & _).
  apply Hcause. by eexists.
Defined.

End VpcMoreFacts.

Module VpcObjectsFacts.
Import VpcObjects.

Lemma filter_fmap {A B} (f : A → B) (P : B → Prop) `{!∀ y, Decision (P y)}
    (l : list A) :
  filter P (f <$> l) = f <$> filter (λ x, P (f x)) l.
Proof.
  induction l as [|x l IH]; [done|].
  rewrite fmap_cons, !filter_cons. destruct (decide (P (f x))); [|done].
  by rewrite fmap_cons, IH.
Qed.

Lemma allocate_spec memory l array memory' :
  allocate memory l = (array, memory') →
  (array ∉ dom memory) ∧ memory ⊆ memory' ∧ elements memory' array = l
  ∧ dom memory' = {[array]} ∪ dom memory.
Proof.
  intros [= <- <-]. pose proof (is_fresh (dom memory)) as Hfresh.
  split_and!; [done|..].
  - apply insert_subseteq. by apply not_elem_of_dom.
  - unfold elements. by rewrite lookup_insert_eq.
  - by rewrite dom_insert_L.
Qed.

Lemma elements_subseteq memory memory' array :
  memory ⊆ memory' → array ∈ dom memory →
  elements memory' array = elements memory array.
Proof.
  intros Hsub [l Hl]%elem_of_dom. unfold elements.
  by rewrite (lookup_weaken _ _ _ _ Hl Hsub), Hl.
Qed.

Lemma elements_push memory array element :
  array ∈ dom memory →
  elements (Array_push memory array element) array
    = elements memory array ++ [element].
Proof.
  intros [l Hl]%elem_of_dom. unfold elements, Array_push.
  by rewrite lookup_alter_eq, Hl.
Qed.

Lemma elements_push_ne memory array element other :
  other ≠ array →
  elements (Array_push memory array element) other = elements memory other.
Proof.
  intros Hne. unfold elements, Array_push. by rewrite lookup_alter_ne.
Qed.

Lemma dom_push memory array element :
  dom (Array_push memory array element) = dom memory.
Proof. unfold Array_push. by rewrite dom_alter_L. Qed.

Lemma elements_push_all memory array dependencies :
  array ∈ dom memory →
  elements (push_all memory array dependencies) array
    = elements memory array ++ dependencies.
Proof.
  unfold push_all. revert memory.
  induction dependencies as [|d ds IH]; intros memory Hin; simpl.
  - by rewrite app_nil_r.
  - rewrite IH by by rewrite dom_push.
    rewrite elements_push by done. by rewrite <- app_assoc.
Qed.

Lemma elements_push_all_ne memory array dependencies other :
  other ≠ array →
  elements (push_all memory array dependencies) other = elements memory other.
Proof.
  intros Hne. unfold push_all. revert memory.
  induction dependencies as [|d ds IH]; intros memory; simpl; [done|].
  by rewrite IH, elements_push_ne.
Qed.

(** [indexOf] finds an element exactly when the array holds it. *)
Lemma Array_indexOf_found memory array searchElement :
  (Array_indexOf memory array searchElement >? -1)%Z = true
    ↔ searchElement ∈ elements memory array.
Proof.
  unfold Array_indexOf.
  destruct (list_find _ _) as [[i x]|] eqn:Hfind.
  - apply list_find_Some in Hfind as (Hi & -> & _).
    split; [intros _|intros _; apply Z.gtb_lt; lia].
    by eapply list_elem_of_lookup_2.
  - apply list_find_None in Hfind. split; [done|]. intros Hin.
    rewrite Forall_forall in Hfind. by destruct (Hfind _ Hin).
Qed.

(** X8: [isPublicSubnet] answers [true] exactly for the objects the array of
    public subnets holds, so [false] for every object that is not in it, and
    on a network without public subnets for every object. *)
Theorem isPublicSubnet_iff_same_object memory this :
  (∀ subnet, isPublicSubnet memory this subnet = true
             ↔ subnet ∈ elements memory (publicSubnets this))
  ∧ (elements memory (publicSubnets this) = [] ↔
     ∀ subnet, isPublicSubnet memory this subnet = false).
Proof.
  assert (∀ subnet, isPublicSubnet memory this subnet = true
                    ↔ subnet ∈ elements memory (publicSubnets this)) as Hiff
    by (intros subnet; apply Array_indexOf_found).
  split; [done|]. split.
  - intros Hempty subnet. apply not_true_is_false. rewrite Hiff, Hempty.
    apply not_elem_of_nil.
  - intros Hnone. destruct (elements memory (publicSubnets this)) as [|s l] eqn:Hl;
      [done|].
    assert (isPublicSubnet memory this s = true) as Htrue.
    { apply Array_indexOf_found. rewrite Hl. apply list_elem_of_here. }
    by rewrite Hnone in Htrue.
Qed.

(** X9: constructing a network makes two new arrays, both empty and not the
    same one, and leaves every array there was as it is. *)
Theorem construct_allocates_two_arrays
    memory vpcId pub priv iso azs this memory' :
  construct memory vpcId pub priv iso azs = (this, memory') →
  dependencyElements this ≠ internetDependencies this
  ∧ (dependencyElements this ∉ dom memory)
  ∧ (internetDependencies this ∉ dom memory)
  ∧ elements memory' (dependencyElements this) = []
  ∧ elements memory' (internetDependencies this) = []
  ∧ memory ⊆ memory'.
Proof.
  unfold construct, new_array.
  destruct (allocate memory []) as [d memory1] eqn:Hd.
  destruct (allocate memory1 []) as [i memory2] eqn:Hi.
  intros [= <- <-]. simpl.
  apply allocate_spec in Hd as (Hd & Hsub1 & Hread1 & Hdom1).
  apply allocate_spec in Hi as (Hi & Hsub2 & Hread2 & Hdom2).
  assert (d ∈ dom memory1) as Hd1.
  { rewrite Hdom1. by apply elem_of_union_l, elem_of_singleton. }
  split_and!.
  - by intros ->.
  - done.
  - intros Hin. apply Hi. rewrite Hdom1. by apply elem_of_union_r.
  - by rewrite (elements_subseteq memory1).
  - done.
  - by etrans.
Qed.

(** X10: the list [internetDependency] returns is a view of the network's
    array, not a copy: dependencies pushed after the call are read through
    it, and no other array changes. *)
Theorem internetDependency_is_live memory this dependencies :
  internetDependencies this ∈ dom memory →
  let list := internetDependency this in
  let memory' := push_all memory (internetDependencies this) dependencies in
  elements memory' (DependencyList_dependencyElements list)
    = elements memory (internetDependencies this) ++ dependencies
  ∧ ∀ other, other ≠ internetDependencies this →
             elements memory' other = elements memory other.
Proof.
  intros Hin. simpl. split.
  - by apply elements_push_all.
  - intros other Hne. by apply elements_push_all_ne.
Qed.

Section Subnets.

Variable subnetName_of : Vpc.IVpcSubnet → string.
Variable fields : ref → Vpc.IVpcSubnet.

(** A selection by name, step by step: three new arrays, the last one holds
    the selection. *)
Lemma subnets_by_name_spec memory this name required_arg :
  ∃ array memory',
    subnets subnetName_of fields memory this (Some (Vpc.by_name name)) required_arg
      = (if (length (elements memory' array) =? 0)%nat
         then Throw (Vpc.no_subnets_with_name_error name)
         else Return (array, memory'))
    ∧ (array ∉ dom memory) ∧ memory ⊆ memory'
    ∧ (subnets_in memory this →
       elements memory' array
         = filter (λ s, subnetName_of (fields s) = name)
             (elements memory (privateSubnets this)
                ++ elements memory (publicSubnets this)
                ++ elements memory (isolatedSubnets this))).
Proof.
  unfold subnets, Array_concat, Array_filter, Array_length. cbn -[allocate].
  destruct (allocate memory _) as [a1 memory1] eqn:H1.
  destruct (allocate memory1 _) as [a2 memory2] eqn:H2.
  destruct (allocate memory2 _) as [a3 memory3] eqn:H3.
  apply allocate_spec in H1 as (Hnew1 & Hsub1 & Hread1 & Hdom1).
  apply allocate_spec in H2 as (Hnew2 & Hsub2 & Hread2 & Hdom2).
  apply allocate_spec in H3 as (Hnew3 & Hsub3 & Hread3 & Hdom3).
  exists a3, memory3. split_and!.
  - done.
  - intros Hin. apply Hnew3. rewrite Hdom2, Hdom1.
    by apply elem_of_union_r, elem_of_union_r.
  - by do 2 etrans.
  - intros (_ & _ & Hiso). rewrite Hread3, Hread2, Hread1.
    rewrite (elements_subseteq memory memory1) by done.
    by rewrite <- app_assoc.
Qed.

(** [subnets] looks at its placement argument through the default only. *)
Lemma subnets_default memory this placement_arg required_arg :
  subnets subnetName_of fields memory this placement_arg required_arg
    = subnets subnetName_of fields memory this
        (Some (default Vpc.no_placement placement_arg)) required_arg.
Proof. by destruct placement_arg. Qed.

(** A selection by type, or none: no new array. *)
Lemma subnets_by_type_spec memory this placement_arg required_arg :
  Vpc.subnetName (default Vpc.no_placement placement_arg) = None →
  subnets subnetName_of fields memory this placement_arg required_arg
    = match Vpc.subnetsToUse (default Vpc.no_placement placement_arg) with
      | None => Return (privateSubnets this, memory)
      | Some t =>
          if bool_decide (default Vpc.Required required_arg = Vpc.Required)
             && (length (elements memory (selected this t)) =? 0)%nat
          then Throw (Vpc.no_subnets_match_error (Vpc.by_type t))
          else Return (selected this t, memory)
      end.
Proof.
  rewrite subnets_default.
  destruct (default Vpc.no_placement placement_arg) as [[t|] [name|]];
    by intros [=].
Qed.

(** X11: [subnets] reads the three arrays as they are when it is called: the
    array it returns holds what the selection over their elements gives, and
    it throws when that selection throws, with the same message. *)
Theorem subnets_reads_arrays memory this placement_arg required_arg :
  subnets_in memory this →
  read fields (subnets subnetName_of fields memory this placement_arg required_arg)
    = Vpc.subnets subnetName_of (view fields memory this) placement_arg required_arg.
Proof.
  intros Hin. rewrite VpcMoreFacts.subnets_unfold.
  destruct (default Vpc.no_placement placement_arg) as [[t|] [name|]] eqn:Hp.
  - by rewrite subnets_default, Hp.
  - rewrite subnets_by_type_spec by by rewrite Hp. rewrite Hp. simpl.
    assert (fields <$> elements memory (selected this t)
            = Vpc.selected (view fields memory this) t) as <- by by destruct t.
    rewrite length_fmap. by destruct (_ && _).
  - destruct (subnets_by_name_spec memory this name required_arg)
      as (array & memory' & Hrun & _ & _ & Hread).
    rewrite subnets_default, Hp. unfold Vpc.by_name in Hrun. rewrite Hrun.
    assert (fields <$> elements memory' array
            = Vpc.selectedSubnets subnetName_of (view fields memory this) name)
      as <-.
    { rewrite (Hread Hin). unfold Vpc.selectedSubnets. simpl.
      by rewrite <- !fmap_app, filter_fmap. }
    rewrite length_fmap. by destruct (_ =? _)%nat.
  - rewrite subnets_by_type_spec by by rewrite Hp. by rewrite Hp.
Qed.

(** The memory after a call extends the memory before it. *)
Lemma subnets_subseteq memory this placement_arg required_arg array memory' :
  subnets subnetName_of fields memory this placement_arg required_arg
    = Return (array, memory') →
  memory ⊆ memory'.
Proof.
  destruct (default Vpc.no_placement placement_arg) as [[t|] [name|]] eqn:Hp.
  - by rewrite subnets_default, Hp.
  - rewrite subnets_by_type_spec by by rewrite Hp. rewrite Hp. simpl.
    destruct (_ && _); [done|]. by intros [= _ <-].
  - destruct (subnets_by_name_spec memory this name required_arg)
      as (array' & memory'' & Hrun & _ & Hsub & _).
    rewrite subnets_default, Hp. unfold Vpc.by_name in Hrun. rewrite Hrun.
    destruct (_ =? _)%nat; [done|]. by intros [= _ <-].
  - rewrite subnets_by_type_spec by by rewrite Hp. rewrite Hp. simpl.
    by intros [= _ <-].
Qed.

(** X12: [subnets] changes no array: after the call every array that was in
    memory holds the elements it held, so the network reads as before, and
    the returned reference is an array in memory. *)
Theorem subnets_changes_no_array
    memory this placement_arg required_arg array memory' :
  subnets_in memory this →
  subnets subnetName_of fields memory this placement_arg required_arg
    = Return (array, memory') →
  (∀ other, other ∈ dom memory → memory' !! other = memory !! other)
  ∧ view fields memory' this = view fields memory this
  ∧ array ∈ dom memory'.
Proof.
  intros (Hpublic & Hprivate & Hisolated) Hrun.
  pose proof (subnets_subseteq _ _ _ _ _ _ Hrun) as Hsub.
  split_and!.
  - intros other [l Hl]%elem_of_dom. rewrite Hl.
    by apply (lookup_weaken memory).
  - unfold view. by rewrite !(elements_subseteq memory memory').
  - destruct (default Vpc.no_placement placement_arg) as [[t|] [name|]] eqn:Hp.
    + by rewrite subnets_default, Hp in Hrun.
    + rewrite subnets_by_type_spec in Hrun by by rewrite Hp.
      rewrite Hp in Hrun. simpl in Hrun. destruct (_ && _); [done|].
      injection Hrun as <- <-. by destruct t.
    + rewrite subnets_default, Hp in Hrun. revert Hrun.
      unfold subnets, Array_concat, Array_filter, Array_length.
      cbn -[allocate].
      destruct (allocate memory _) as [a1 memory1].
      destruct (allocate memory1 _) as [a2 memory2].
      destruct (allocate memory2 _) as [a3 memory3] eqn:H3.
      apply allocate_spec in H3 as (_ & _ & _ & Hdom3).
      destruct (_ =? _)%nat; [done|]. intros [= <- <-].
      rewrite Hdom3. by apply elem_of_union_l, elem_of_singleton.
    + rewrite subnets_by_type_spec in Hrun by by rewrite Hp.
      rewrite Hp in Hrun. by injection Hrun as <- <-.
Qed.

(** X13: a selection by type, or no placement, hands out the network's own
    array, not a copy: what is pushed onto the returned array is in the
    network's array, and the same call then returns it with the new
    element. *)
Theorem subnets_by_type_shares_array
    memory this placement_arg required_arg array memory' :
  Vpc.subnetName (default Vpc.no_placement placement_arg) = None →
  subnets_in memory this →
  subnets subnetName_of fields memory this placement_arg required_arg
    = Return (array, memory') →
  memory' = memory
  ∧ array = match Vpc.subnetsToUse (default Vpc.no_placement placement_arg) with
            | None => privateSubnets this
            | Some t => selected this t
            end
  ∧ ∀ element,
      let pushed := Array_push memory' array element in
      elements pushed array = elements memory array ++ [element]
      ∧ subnets subnetName_of fields pushed this placement_arg required_arg
          = Return (array, pushed).
Proof.
  intros Hname (Hpublic & Hprivate & Hisolated) Hrun.
  assert (∀ t, selected this t ∈ dom memory) as Hselected by by intros [].
  rewrite subnets_by_type_spec in Hrun by done.
  assert (memory' = memory
          ∧ array = match Vpc.subnetsToUse (default Vpc.no_placement placement_arg) with
                    | None => privateSubnets this
                    | Some t => selected this t
                    end) as [-> Harray].
  { destruct (Vpc.subnetsToUse _) as [t|]; [destruct (_ && _); [done|]|];
      by injection Hrun as <- <-. }
  split_and!; [done..|]. intros element pushed.
  assert (array ∈ dom memory) as Hin.
  { rewrite Harray. by destruct (Vpc.subnetsToUse _). }
  assert (elements pushed array = elements memory array ++ [element]) as Hpushed
    by by apply elements_push.
  split; [done|]. rewrite subnets_by_type_spec by done.
  destruct (Vpc.subnetsToUse _) as [t|]; [|by rewrite Harray].
  rewrite <- Harray, Hpushed, length_app, Nat.add_comm. simpl.
  by rewrite andb_false_r.
Qed.

(** X14: a selection by name hands out a new array: it is none of the arrays
    there were, and what is pushed onto it shows in none of them, so the
    network is as it was. *)
Theorem subnets_by_name_makes_new_array
    memory this name required_arg array memory' :
  subnets_in memory this →
  subnets subnetName_of fields memory this (Some (Vpc.by_name name)) required_arg
    = Return (array, memory') →
  (array ∉ dom memory)
  ∧ ∀ element,
      let pushed := Array_push memory' array element in
      (∀ other, other ∈ dom memory → elements pushed other = elements memory other)
      ∧ view fields pushed this = view fields memory this.
Proof.
  intros (Hpublic & Hprivate & Hisolated) Hrun.
  destruct (subnets_by_name_spec memory this name required_arg)
    as (array' & memory'' & Hspec & Hnew & Hsub & _).
  rewrite Hspec in Hrun. destruct (_ =? _)%nat; [done|].
  injection Hrun as -> ->. split; [done|]. intros element pushed.
  assert (∀ other, other ∈ dom memory →
                   elements pushed other = elements memory other) as Hsame.
  { intros other Hin. unfold pushed.
    rewrite elements_push_ne by by intros ->.
    by apply elements_subseteq. }
  split; [done|]. unfold view. by rewrite !Hsame.
Qed.

(** X15: [isPublicSubnet] answers after a call of [subnets] as it did before,
    and the array a selection of the public subnets returns holds exactly the
    subnets [isPublicSubnet] accepts. *)
Theorem isPublicSubnet_after_subnets
    memory this placement_arg required_arg array memory' :
  subnets_in memory this →
  subnets subnetName_of fields memory this placement_arg required_arg
    = Return (array, memory') →
  (∀ subnet, isPublicSubnet memory' this subnet = isPublicSubnet memory this subnet)
  ∧ (Vpc.subnetsToUse (default Vpc.no_placement placement_arg) = Some Vpc.Public →
     ∀ subnet, subnet ∈ elements memory' array
               ↔ isPublicSubnet memory' this subnet = true).
Proof.
  intros (Hpublic & Hprivate & Hisolated) Hrun.
  pose proof (subnets_subseteq _ _ _ _ _ _ Hrun) as Hsub.
  split.
  - intros subnet. unfold isPublicSubnet, Array_indexOf.
    by rewrite (elements_subseteq memory memory').
  - intros Htype subnet. unfold isPublicSubnet. rewrite Array_indexOf_found.
    destruct (default Vpc.no_placement placement_arg) as [[t|] [n|]] eqn:Hp;
      try done.
    + by rewrite subnets_default, Hp in Hrun.
    + rewrite subnets_by_type_spec in Hrun by by rewrite Hp.
      rewrite Hp in Hrun. simpl in *. destruct (_ && _); [done|].
      injection Htype as ->. by injection Hrun as <- <-.
Qed.

End Subnets.

(** The theorems at the sample network. *)
Lemma sample_subnets_in : subnets_in sample_memory (fst sample_network).
Proof. split_and!; apply (bool_decide_unpack _); by vm_compute. Defined.

Lemma construct_allocates_two_arrays_sample :
  dependencyElements (fst sample_network)
    ≠ internetDependencies (fst sample_network)
  ∧ (dependencyElements (fst sample_network) ∉ dom sample_memory)
  ∧ (internetDependencies (fst sample_network) ∉ dom sample_memory)
  ∧ elements (snd sample_network) (dependencyElements (fst sample_network)) = []
  ∧ elements (snd sample_network) (internetDependencies (fst sample_network)) = []
  ∧ sample_memory ⊆ snd sample_network.
Proof.
  exact (construct_allocates_two_arrays sample_memory "vpc-1" 1 2 3
           ["az-a"; "az-b"] (fst sample_network) (snd sample_network) eq_refl).
Defined.

Lemma internetDependency_is_live_sample :
  elements (push_all (snd sample_network)
              (internetDependencies (fst sample_network)) [21; 22])
           (DependencyList_dependencyElements
              (internetDependency (fst sample_network)))
    = elements (snd sample_network) (internetDependencies (fst sample_network))
        ++ [21; 22].
Proof.
  refine (proj1 (internetDependency_is_live (snd sample_network)
                   (fst sample_network) [21; 22] _)).
  apply (bool_decide_unpack _). by vm_compute.
Defined.

Lemma subnets_reads_arrays_sample :
  read sample_fields
       (subnets Vpc.node_id sample_fields sample_memory (fst sample_network)
          (Some (Vpc.by_name "App")) None)
    = Vpc.subnets Vpc.node_id
        (view sample_fields sample_memory (fst sample_network))
        (Some (Vpc.by_name "App")) None.
Proof.
  exact (subnets_reads_arrays Vpc.node_id sample_fields sample_memory
           (fst sample_network) (Some (Vpc.by_name "App")) None
           sample_subnets_in).
Defined.

Lemma subnets_changes_no_array_sample :
  ∃ array memory',
    subnets Vpc.node_id sample_fields sample_memory (fst sample_network)
      (Some (Vpc.by_name "App")) None = Return (array, memory')
    ∧ view sample_fields memory' (fst sample_network)
        = view sample_fields sample_memory (fst sample_network).
Proof.
  assert (∃ array memory',
            subnets Vpc.node_id sample_fields sample_memory (fst sample_network)
              (Some (Vpc.by_name "App")) None = Return (array, memory'))
    as (array & memory' & Hrun) by (eexists _, _; vm_compute; reflexivity).
  exists array, memory'. split; [done|].
  by destruct (subnets_changes_no_array Vpc.node_id sample_fields sample_memory
                 (fst sample_network) (Some (Vpc.by_name "App")) None
                 array memory' sample_subnets_in Hrun) as (_ & ? & _).
Defined.

Lemma subnets_by_type_shares_array_sample :
  subnets Vpc.node_id sample_fields
    (Array_push sample_memory (privateSubnets (fst sample_network)) 15)
    (fst sample_network) None None
  = Return (privateSubnets (fst sample_network),
            Array_push sample_memory (privateSubnets (fst sample_network)) 15).
Proof.
  destruct (subnets_by_type_shares_array Vpc.node_id sample_fields sample_memory
              (fst sample_network) None None
              (privateSubnets (fst sample_network)) sample_memory
              eq_refl sample_subnets_in eq_refl) as (_ & _ & Hpush).
  by destruct (Hpush 15) as [_ ?].
Defined.

Lemma subnets_by_name_makes_new_array_sample :
  ∃ array memory',
    subnets Vpc.node_id sample_fields sample_memory (fst sample_network)
      (Some (Vpc.by_name "App")) None = Return (array, memory')
    ∧ (array ∉ dom sample_memory).
Proof.
  assert (∃ array memory',
            subnets Vpc.node_id sample_fields sample_memory (fst sample_network)
              (Some (Vpc.by_name "App")) None = Return (array, memory'))
    as (array & memory' & Hrun) by (eexists _, _; vm_compute; reflexivity).
  exists array, memory'. split; [done|].
  by destruct (subnets_by_name_makes_new_array Vpc.node_id sample_fields
                 sample_memory (fst sample_network) "App" None
                 array memory' sample_subnets_in Hrun) as [? _].
Defined.

Lemma isPublicSubnet_after_subnets_sample :
  14 ∈ elements sample_memory (publicSubnets (fst sample_network))
  ↔ isPublicSubnet sample_memory (fst sample_network) 14 = true.
Proof.
  destruct (isPublicSubnet_after_subnets Vpc.node_id sample_fields sample_memory
              (fst sample_network) (Some (Vpc.by_type Vpc.Public)) None
              (publicSubnets (fst sample_network)) sample_memory
              sample_subnets_in eq_refl) as [_ Hpublic].
  by apply Hpublic.
Defined.

End VpcObjectsFacts.
